(** * ProfileDots: the interactive dot grid of [interactive_dots.js]

    A shallow embedding of the [ProfileDots] class and of the properties its
    specification states about it.

    Numbers.  JavaScript numbers are modelled by the real numbers [R]:
    [Math.sqrt] is [sqrt], [Math.abs] is [Rabs], [Math.max] and [Math.min]
    are [Rmax] and [Rmin], [Math.sin] is [sin] and [Math.PI] is [PI].
    Rounding, infinities and NaN are outside the model.  Module
    [Binary64] repeats the numeric functions on IEEE 754 doubles, where
    they run, to compare both models on the inputs of the scenarios.
    Where rounding can move a count or flip a comparison, a property is
    stated for inputs on which the doubles are exact, or in terms of
    the values the code computes.

    Environment.  What a method reads from the browser ([Date.now()],
    [Math.random()], [getBoundingClientRect()], the event object) is an
    argument of the function that models it.  What it does to the browser
    (listeners registered, drawing commands, frames requested) is part of
    its result. *)

From Stdlib Require Import String Ascii Floats QArith.
From Stdlib Require Import Reals Lra Lia List ZArith Bool.
Import ListNotations.
Open Scope R_scope.

(* ################################################################# *)
(** * Part I: the model *)

(* ================================================================= *)
(** ** Numbers *)

(** [Rceil r] is the least integer that is at least [r]. *)
Definition Rceil (r : R) : Z := (1 - up (- r))%Z.

(** The comparison [a < b] as a JavaScript boolean. *)
Definition Rltb (a b : R) : bool := if Rlt_dec a b then true else false.

(** [r] truncated towards zero. *)
Definition Rtrunc (r : R) : Z :=
  if Rle_dec 0 r then Int_part r else (- Int_part (- r))%Z.

(** What assigning the number [v] to [canvas.width] or [canvas.height]
    leaves in the attribute.  The attributes are [unsigned long]: the
    number is truncated and wrapped modulo [2^32], and a result above
    [2^31 - 1] is replaced by the attribute's default (300 for the
    width, 150 for the height). *)
Definition canvasLength (v : R) (default : Z) : R :=
  let n := (Rtrunc v mod 4294967296)%Z in
  if (n <=? 2147483647)%Z then IZR n else IZR default.
Arguments canvasLength : simpl never.

(** [2^50]: below it every integer and every half of an integer is a
    double, so sums of them are formed without rounding. *)
Definition exactRange : R := 1125899906842624.

(* ================================================================= *)
(** ** Outcome of a call *)

Inductive JsError := TypeError.

(** A call returns, throws, or is still running when the fuel is spent. *)
Inductive Result (A : Type) : Type :=
| Ok (a : A)
| Throw (e : JsError)
| OutOfFuel.
Arguments Ok {A} a.
Arguments Throw {A} e.
Arguments OutOfFuel {A}.

Definition bind {A B : Type} (r : Result A) (k : A -> Result B) : Result B :=
  match r with
  | Ok a => k a
  | Throw e => Throw e
  | OutOfFuel => OutOfFuel
  end.

Notation "x <- r ;; k" := (bind r (fun x => k))
  (at level 61, r at next level, right associativity).

(* ================================================================= *)
(** ** Data model *)

(** A dot of the grid: [{x, y, originalX, originalY, phase}]. *)
Record Dot := mkDot {
  dot_x : R;
  dot_y : R;
  originalX : R;
  originalY : R;
  phase : R
}.

(** A ripple: [{x, y, time, intensity}]. *)
Record Ripple := mkRipple {
  ripple_x : R;
  ripple_y : R;
  ripple_time : R;
  intensity : R
}.

(** [this.mouse]: [{x, y, isDown}]. *)
Record Mouse := mkMouse {
  mouse_x : R;
  mouse_y : R;
  isDown : bool
}.

(** The part of a [DOMRect] the code reads. *)
Record Rect := mkRect {
  rect_left : R;
  rect_top : R;
  rect_width : R;
  rect_height : R
}.

(** The part of a mouse event and of a touch point the code reads. *)
Record MouseEvent := mkMouseEvent {
  clientX : R;
  clientY : R
}.

Record Touch := mkTouch {
  touch_clientX : R;
  touch_clientY : R
}.

(** The [options] argument of the constructor; [None] is an absent
    ([undefined]) property. *)
Record Options := mkOptions {
  opt_backgroundColor : option string;
  opt_dotColor : option string;
  opt_gridSpacing : option R;
  opt_animationSpeed : option R;
  opt_removeWaveLine : option bool
}.

(** [options = {}]. *)
Definition noOptions : Options := mkOptions None None None None None.

(** [v || d] on a number: [undefined] and [0] are falsy. *)
Definition orNumber (v : option R) (d : R) : R :=
  match v with
  | Some n => if Req_dec_T n 0 then d else n
  | None => d
  end.

(** [v || d] on a string: [undefined] and the empty string are falsy. *)
Definition orString (v : option string) (d : string) : string :=
  match v with
  | Some EmptyString => d
  | Some s => s
  | None => d
  end.

(** The fields of a [ProfileDots] object whose canvas was found.  Of the
    canvas and its context the width and height attributes and the scale
    of the current transform are kept. *)
Record ProfileDots := mkProfileDots {
  canvas_width : R;
  canvas_height : R;
  ctx_scale : R;
  backgroundColor : string;
  dotColor : string;
  gridSpacing : R;
  animationSpeed : R;
  removeWaveLine : bool;
  time : R;
  mouse : Mouse;
  ripples : list Ripple;
  dots : list Dot;
  dpr : R;
  animationFrameId : option nat
}.

(** The object the constructor leaves behind: [Inert] when
    [this.canvas] is [null] (no other field is ever set), [Live]
    otherwise. *)
Inductive Instance :=
| Inert
| Live (self : ProfileDots).

Definition set_canvas (self : ProfileDots) (w h scale : R) : ProfileDots :=
  mkProfileDots w h scale
    (backgroundColor self) (dotColor self) (gridSpacing self)
    (animationSpeed self) (removeWaveLine self) (time self) (mouse self)
    (ripples self) (dots self) (dpr self) (animationFrameId self).

Definition set_time (self : ProfileDots) (t : R) : ProfileDots :=
  mkProfileDots (canvas_width self) (canvas_height self) (ctx_scale self)
    (backgroundColor self) (dotColor self) (gridSpacing self)
    (animationSpeed self) (removeWaveLine self) t (mouse self)
    (ripples self) (dots self) (dpr self) (animationFrameId self).

Definition set_mouse (self : ProfileDots) (m : Mouse) : ProfileDots :=
  mkProfileDots (canvas_width self) (canvas_height self) (ctx_scale self)
    (backgroundColor self) (dotColor self) (gridSpacing self)
    (animationSpeed self) (removeWaveLine self) (time self) m
    (ripples self) (dots self) (dpr self) (animationFrameId self).

Definition set_ripples (self : ProfileDots) (rs : list Ripple) : ProfileDots :=
  mkProfileDots (canvas_width self) (canvas_height self) (ctx_scale self)
    (backgroundColor self) (dotColor self) (gridSpacing self)
    (animationSpeed self) (removeWaveLine self) (time self) (mouse self)
    rs (dots self) (dpr self) (animationFrameId self).

Definition set_dots (self : ProfileDots) (ds : list Dot) : ProfileDots :=
  mkProfileDots (canvas_width self) (canvas_height self) (ctx_scale self)
    (backgroundColor self) (dotColor self) (gridSpacing self)
    (animationSpeed self) (removeWaveLine self) (time self) (mouse self)
    (ripples self) ds (dpr self) (animationFrameId self).

Definition set_animationFrameId (self : ProfileDots) (id : option nat)
  : ProfileDots :=
  mkProfileDots (canvas_width self) (canvas_height self) (ctx_scale self)
    (backgroundColor self) (dotColor self) (gridSpacing self)
    (animationSpeed self) (removeWaveLine self) (time self) (mouse self)
    (ripples self) (dots self) (dpr self) id.

(* ================================================================= *)
(** ** The browser *)

(** An element of the document: whether [getContext('2d')] gives a
    drawing context, and the bounding box of its parent element ([None]
    when it has no parent element). *)
Record Element := mkElement {
  has2dContext : bool;
  parentBox : option Rect
}.

(** What the constructor reads: the document, [window.devicePixelRatio],
    the successive results of [Math.random()], the result of [Date.now()]
    in the first frame and the id [requestAnimationFrame] returns. *)
Record Browser := mkBrowser {
  getElementById : string -> option Element;
  devicePixelRatio : option R;
  mathRandom : nat -> R;
  dateNow : R;
  nextFrameId : nat
}.

Inductive Target := OnWindow | OnDocument | OnCanvas.

(** One [addEventListener] call. *)
Inductive Listener := Listen (target : Target) (type : string).

(** The drawing commands: [clearRect]; a dot, [beginPath], [arc] and
    [fill] with [fillStyle] the colour of [color] at [opacity]; a ripple
    outline, [beginPath], [arc] and [stroke] in grey at [alpha]. *)
Inductive Paint :=
| ClearRect (x y w h : R)
| FillArc (x y radius : R) (color : string) (opacity : R)
| StrokeArc (x y radius alpha : R).

(** What a call did to the browser. *)
Record Effects := mkEffects {
  listeners : list Listener;
  painted : list Paint;
  frameRequests : nat
}.

Definition noEffects : Effects := mkEffects [] [] 0.

(* ================================================================= *)
(** ** [initDots] *)

Section Grid.

(** [random k] is what the [k]-th call of [Math.random()] made by this
    run of [initDots] returns (counting from 0); [spacing] is
    [this.gridSpacing]. *)
Variable random : nat -> R.
Variable spacing : R.

(** The object literal pushed by the inner loop. *)
Definition newDot (x y : R) (k : nat) : Dot :=
  mkDot x y x y (random k * PI * 2).

(** [for (let y = ...; y < height; y += this.gridSpacing) push]: the loop
    state is the dot list and the number of random draws made.  [None]
    when the fuel runs out before the loop condition fails. *)
Fixpoint innerLoop (fuel : nat) (height x y : R) (dots : list Dot) (k : nat)
  : option (list Dot * nat) :=
  match fuel with
  | O => None
  | S fuel' =>
      if Rlt_dec y height
      then innerLoop fuel' height x (y + spacing)
                     (dots ++ [newDot x y k]) (S k)
      else Some (dots, k)
  end.

(** [for (let x = ...; x < width; x += this.gridSpacing) { inner }];
    every run of the inner loop gets [fuelY] iterations. *)
Fixpoint outerLoop (fuel fuelY : nat) (width height x : R)
         (dots : list Dot) (k : nat) : option (list Dot * nat) :=
  match fuel with
  | O => None
  | S fuel' =>
      if Rlt_dec x width
      then match innerLoop fuelY height x (spacing / 2) dots k with
           | None => None
           | Some (dots', k') =>
               outerLoop fuel' fuelY width height (x + spacing) dots' k'
           end
      else Some (dots, k)
  end.

(** [initDots(width, height)]: [this.dots = []] and the two loops.  The
    result is the new value of [this.dots]. *)
Definition initDots (fuel : nat) (width height : R) : option (list Dot) :=
  match outerLoop fuel fuel width height (spacing / 2) [] 0 with
  | None => None
  | Some (dots, _) => Some dots
  end.

(** *** The grid in closed form *)

(** Centre of the [i]-th row or column. *)
Definition gridCoord (i : nat) : R := spacing / 2 + INR i * spacing.

(** Number of grid coordinates below [extent]. *)
Definition gridCount (extent : R) : nat :=
  Z.to_nat (Rceil (extent / spacing - 1 / 2)).

(** The dots of one column, the first of which takes random draw [k]. *)
Definition gridColumn (x : R) (ny k : nat) : list Dot :=
  map (fun j => newDot x (gridCoord j) (k + j)) (seq 0 ny).

Definition gridDots (nx ny : nat) : list Dot :=
  flat_map (fun i => gridColumn (gridCoord i) ny (i * ny)) (seq 0 nx).

(** The count the specification states: [ceil(W/S) * ceil(H/S)]. *)
Definition specCount (width height : R) : nat :=
  (Z.to_nat (Rceil (width / spacing)) *
   Z.to_nat (Rceil (height / spacing)))%nat.

End Grid.

(** Where a dot is painted. *)
Definition position (d : Dot) : R * R := (originalX d, originalY d).

(* ================================================================= *)
(** ** [resize] *)

(** [parent] is [this.canvas.parentElement.getBoundingClientRect()], or
    [None] when there is no parent element.  [canvas.width] and
    [canvas.height] keep the truncated products.  Assigning
    [canvas.width] resets the transform of the context, so
    [ctx.scale(dpr, dpr)] leaves the scale [dpr]. *)
Definition resize (fuel : nat) (self : ProfileDots) (parent : option Rect)
           (random : nat -> R) : Result ProfileDots :=
  match parent with
  | None => Throw TypeError
  | Some rect =>
      let displayWidth := rect_width rect in
      let displayHeight := rect_height rect in
      let self1 :=
        set_canvas self (canvasLength (displayWidth * dpr self) 300)
                   (canvasLength (displayHeight * dpr self) 150)
                   (dpr self) in
      match initDots random (gridSpacing self1) fuel
                     displayWidth displayHeight with
      | None => OutOfFuel
      | Some ds => Ok (set_dots self1 ds)
      end
  end.

(* ================================================================= *)
(** ** The event handlers of [initEvents] *)

Definition initEvents : list Listener :=
  [ Listen OnWindow "resize";
    Listen OnDocument "mousemove";
    Listen OnCanvas "mousedown";
    Listen OnCanvas "mouseup";
    Listen OnCanvas "touchstart" ].

(** In each handler [rect] is [this.canvas.getBoundingClientRect()]. *)
Definition onMouseMove (self : ProfileDots) (e : MouseEvent) (rect : Rect)
  : ProfileDots :=
  set_mouse self (mkMouse (clientX e - rect_left rect)
                          (clientY e - rect_top rect)
                          (isDown (mouse self))).

(** [pushed] and [now] are the results of the two calls of [Date.now()],
    in the order the handler makes them. *)
Definition onMouseDown (self : ProfileDots) (e : MouseEvent) (rect : Rect)
           (pushed now : R) : ProfileDots :=
  let self1 :=
    set_mouse self (mkMouse (mouse_x (mouse self)) (mouse_y (mouse self))
                            true) in
  let self2 :=
    set_ripples self1
      (ripples self1 ++ [mkRipple (clientX e - rect_left rect)
                                  (clientY e - rect_top rect)
                                  pushed 2]) in
  set_ripples self2
    (filter (fun r => Rltb (now - ripple_time r) 3000) (ripples self2)).

Definition onMouseUp (self : ProfileDots) : ProfileDots :=
  set_mouse self (mkMouse (mouse_x (mouse self)) (mouse_y (mouse self))
                          false).

(** [touches] is [e.touches]; reading a property of [e.touches[0]] throws
    when the list is empty.  [now] is the result of [Date.now()]. *)
Definition onTouchStart (self : ProfileDots) (touches : list Touch)
           (rect : Rect) (now : R) : Result ProfileDots :=
  match touches with
  | [] => Throw TypeError
  | touch :: _ =>
      Ok (set_ripples self
            (ripples self ++ [mkRipple (touch_clientX touch - rect_left rect)
                                       (touch_clientY touch - rect_top rect)
                                       now 2]))
  end.

(* ================================================================= *)
(** ** Influence of the pointer and of the ripples *)

Definition getMouseInfluence (self : ProfileDots) (x y : R) : R :=
  let dx := x - mouse_x (mouse self) in
  let dy := y - mouse_y (mouse self) in
  let distance := sqrt (dx * dx + dy * dy) in
  let maxDistance := 100 in
  Rmax 0 (1 - distance / maxDistance).

(** The [distance] of [getMouseInfluence], as the code computes it. *)
Definition mouseDistance (self : ProfileDots) (x y : R) : R :=
  let dx := x - mouse_x (mouse self) in
  let dy := y - mouse_y (mouse self) in
  sqrt (dx * dx + dy * dy).

(** The body of the [forEach] callback of [getRippleInfluence]: the new
    value of [totalInfluence]. *)
Definition rippleStep (x y currentTime : R) (totalInfluence : R)
           (ripple : Ripple) : R :=
  let age := currentTime - ripple_time ripple in
  let maxAge := 2000 in
  if Rlt_dec age maxAge then
    let dx := x - ripple_x ripple in
    let dy := y - ripple_y ripple in
    let distance := sqrt (dx * dx + dy * dy) in
    let progress := age / maxAge in
    let rippleRadius := progress * 150 in
    let rippleWidth := 40 in
    if Rlt_dec (Rabs (distance - rippleRadius)) rippleWidth then
      let rippleStrength := (1 - progress) * intensity ripple in
      let proximity := 1 - Rabs (distance - rippleRadius) / rippleWidth in
      totalInfluence + rippleStrength * proximity
    else totalInfluence
  else totalInfluence.

Definition getRippleInfluence (self : ProfileDots) (x y currentTime : R) : R :=
  let totalInfluence :=
    fold_left (rippleStep x y currentTime) (ripples self) 0 in
  Rmin totalInfluence 2.

(* ================================================================= *)
(** ** [animate] *)

(** The body of the [forEach] callback over the dots: the dot as it is
    left, and what is painted. *)
Definition drawDot (self : ProfileDots) (currentTime : R) (dot : Dot)
  : Dot * Paint :=
  let mouseInf := getMouseInfluence self (originalX dot) (originalY dot) in
  let rippleInf :=
    getRippleInfluence self (originalX dot) (originalY dot) currentTime in
  let totalInf := mouseInf + rippleInf in
  let dot' := mkDot (originalX dot) (originalY dot)
                    (originalX dot) (originalY dot) (phase dot) in
  let baseSize := 1.5 in
  let size := baseSize + totalInf * 3 + sin (time self + phase dot) * 0.5 in
  let opacity :=
    Rmax 0.3 (0.6 + totalInf * 0.4 +
              Rabs (sin (time self * 0.5 + phase dot)) * 0.1) in
  (dot', FillArc (dot_x dot') (dot_y dot') (Rmax 0 size) (dotColor self)
                 opacity).

(** The body of the [forEach] callback over the ripples.  ([ctx.arc]
    rejects a negative radius, which a ripple stamped after
    [currentTime] would give; the properties of the outlines are stated
    for frames that no ripple is ahead of.) *)
Definition drawWave (currentTime : R) (ripple : Ripple) : list Paint :=
  let age := currentTime - ripple_time ripple in
  let maxAge := 2000 in
  if Rlt_dec age maxAge then
    let progress := age / maxAge in
    let radius := progress * 150 in
    let alpha := (1 - progress) * 0.3 * intensity ripple in
    [StrokeArc (ripple_x ripple) (ripple_y ripple) radius alpha]
  else [].

(** One frame on an object whose canvas exists: [currentTime] is the
    result of [Date.now()], [frameId] that of [requestAnimationFrame]. *)
Definition animateFrame (self : ProfileDots) (currentTime : R) (frameId : nat)
  : ProfileDots * list Paint :=
  let self1 := set_time self (time self + animationSpeed self) in
  let width := canvas_width self1 / dpr self1 in
  let height := canvas_height self1 / dpr self1 in
  let drawn := map (drawDot self1 currentTime) (dots self1) in
  let waves :=
    if removeWaveLine self1 then []
    else flat_map (drawWave currentTime) (ripples self1) in
  (set_animationFrameId (set_dots self1 (map fst drawn)) (Some frameId),
   ClearRect 0 0 width height :: map snd drawn ++ waves).

(** [animate()], with its guard [if (!this.canvas) return]. *)
Definition animate (inst : Instance) (currentTime : R) (frameId : nat)
  : Instance * Effects :=
  match inst with
  | Inert => (Inert, noEffects)
  | Live self =>
      let (self', paints) := animateFrame self currentTime frameId in
      (Live self', mkEffects [] paints 1)
  end.

(* ================================================================= *)
(** ** The constructor *)

(** [init()]: [resize()], [initEvents()], [animate()]. *)
Definition init (fuel : nat) (b : Browser) (el : Element) (self : ProfileDots)
  : Result (Instance * Effects) :=
  self1 <- resize fuel self (parentBox el) (mathRandom b) ;;
  let (inst, eff) := animate (Live self1) (dateNow b) (nextFrameId b) in
  Ok (inst, mkEffects initEvents (painted eff) (frameRequests eff)).

(** [new ProfileDots(canvasId, options)]. *)
Definition construct (fuel : nat) (b : Browser) (canvasId : string)
           (options : Options) : Result (Instance * Effects) :=
  match getElementById b canvasId with
  | None => Ok (Inert, noEffects)
  | Some el =>
      if has2dContext el then
        init fuel b el
          (mkProfileDots 0 0 1
             (orString (opt_backgroundColor options) "transparent")
             (orString (opt_dotColor options) "#FFD700")
             (orNumber (opt_gridSpacing options) 20)
             (orNumber (opt_animationSpeed options) 0.05)
             (match opt_removeWaveLine options with
              | Some v => v
              | None => false
              end)
             0 (mkMouse 0 0 false) [] []
             (orNumber (devicePixelRatio b) 1) None)
      else Throw TypeError
  end.

(** The [DOMContentLoaded] listener at the end of the file. *)
Definition onDOMContentLoaded (fuel : nat) (b : Browser)
  : Result (option Instance * Effects) :=
  match getElementById b "profile-canvas" with
  | Some _ =>
      r <- construct fuel b "profile-canvas"
             (mkOptions None (Some "#FFD700"%string) (Some 15) None
                        (Some false)) ;;
      Ok (Some (fst r), snd r)
  | None => Ok (None, noEffects)
  end.

(* ================================================================= *)
(** ** The component as a transition system *)

(** An event delivered to a registered listener or a frame callback,
    with what its handler reads from the browser. *)
Inductive Event :=
| WindowResize (parent : option Rect) (random : nat -> R)
| MouseMove (e : MouseEvent) (rect : Rect)
| MouseDown (e : MouseEvent) (rect : Rect) (pushed now : R)
| MouseUp
| TouchStart (touches : list Touch) (rect : Rect) (now : R)
| Frame (currentTime : R) (frameId : nat).

Definition handle (fuel : nat) (self : ProfileDots) (ev : Event)
  : Result (ProfileDots * list Paint) :=
  match ev with
  | WindowResize parent random =>
      self' <- resize fuel self parent random ;; Ok (self', [])
  | MouseMove e rect => Ok (onMouseMove self e rect, [])
  | MouseDown e rect pushed now => Ok (onMouseDown self e rect pushed now, [])
  | MouseUp => Ok (onMouseUp self, [])
  | TouchStart touches rect now =>
      self' <- onTouchStart self touches rect now ;; Ok (self', [])
  | Frame currentTime frameId => Ok (animateFrame self currentTime frameId)
  end.

(** The states the component can be in: the one the constructor returns,
    and those a handler that returns leaves.  (A handler that throws does
    so before it writes to the object.) *)
Inductive Reachable : ProfileDots -> Prop :=
| reach_new (fuel : nat) (b : Browser) (canvasId : string)
            (options : Options) (self : ProfileDots) (eff : Effects) :
    construct fuel b canvasId options = Ok (Live self, eff) ->
    Reachable self
| reach_event (fuel : nat) (self self' : ProfileDots) (ev : Event)
              (out : list Paint) :
    Reachable self ->
    handle fuel self ev = Ok (self', out) ->
    Reachable self'.

(* ================================================================= *)
(** ** Runs of the component *)

Definition isFrame (ev : Event) : bool :=
  match ev with
  | Frame _ _ => true
  | _ => false
  end.

(** The events of a list delivered one after the other: the object left
    by the last handler, and everything painted on the way.  After a
    handler that throws the next event is delivered to the object as it
    was; a handler that does not return blocks the page. *)
Fixpoint runEvents (fuel : nat) (self : ProfileDots) (evs : list Event)
  : Result (ProfileDots * list Paint) :=
  match evs with
  | [] => Ok (self, [])
  | ev :: rest =>
      match handle fuel self ev with
      | Ok (self', out) =>
          r <- runEvents fuel self' rest ;; Ok (fst r, out ++ snd r)
      | Throw _ => runEvents fuel self rest
      | OutOfFuel => OutOfFuel
      end
  end.

(** The object with [this.mouse.isDown] cleared. *)
Definition forgetDown (self : ProfileDots) : ProfileDots :=
  set_mouse self (mkMouse (mouse_x (mouse self)) (mouse_y (mouse self))
                          false).

(** The fields set from the constructor's arguments and from
    [window.devicePixelRatio]. *)
Definition config (self : ProfileDots)
  : string * string * R * R * bool * R :=
  (backgroundColor self, dotColor self, gridSpacing self,
   animationSpeed self, removeWaveLine self, dpr self).

(** The logical size of the canvas, as [animate] computes it. *)
Definition logicalWidth (self : ProfileDots) : R :=
  canvas_width self / dpr self.

Definition logicalHeight (self : ProfileDots) : R :=
  canvas_height self / dpr self.

(** Whether a command strokes a ripple outline. *)
Definition isStroke (p : Paint) : bool :=
  match p with
  | StrokeArc _ _ _ _ => true
  | _ => false
  end.

(** The fields as the constructor sets them before it calls [init()]. *)
Definition fieldsAtInit (b : Browser) (options : Options) : ProfileDots :=
  mkProfileDots 0 0 1
    (orString (opt_backgroundColor options) "transparent")
    (orString (opt_dotColor options) "#FFD700")
    (orNumber (opt_gridSpacing options) 20)
    (orNumber (opt_animationSpeed options) 0.05)
    (match opt_removeWaveLine options with
     | Some v => v
     | None => false
     end)
    0 (mkMouse 0 0 false) [] []
    (orNumber (devicePixelRatio b) 1) None.

(** A dot that sits where it was made, left of and above the far edges
    of a box. *)
Definition dotInBox (rect : Rect) (d : Dot) : Prop :=
  originalX d < rect_width rect /\ originalY d < rect_height rect /\
  dot_x d = originalX d /\ dot_y d = originalY d.

(** The canvas has the size [resize] gives it for a parent box. *)
Definition sizedFrom (self : ProfileDots) (rect : Rect) : Prop :=
  canvas_width self = canvasLength (rect_width rect * dpr self) 300 /\
  canvas_height self = canvasLength (rect_height rect * dpr self) 150.

(** The invariant of the dots: the canvas has the size a resize gave it
    for some parent box, every dot is inside that box and where it was
    made, and at positive coordinates when the spacing is positive. *)
Definition dotsInvariant (self : ProfileDots) : Prop :=
  exists rect : Rect,
    sizedFrom self rect /\ Forall (dotInBox rect) (dots self) /\
    (0 < gridSpacing self ->
     Forall (fun d => 0 < originalX d /\ 0 < originalY d) (dots self)).

(* ================================================================= *)
(** ** The fill colour of a dot *)

(** [animate] builds [fillStyle] from
    [parseInt(this.dotColor.slice(i, i + 2), 16)] for [i] = 1, 3, 5.
    Strings are modelled for ASCII text; a number that is [NaN] is
    [None]. *)

(** [s.slice(i, j)] for [0 <= i] and [0 <= j]. *)
Definition slice (s : string) (i j : nat) : string := substring i (j - i) s.

(** The ASCII white space [parseInt] skips: tab, line feed, vertical
    tab, form feed, carriage return and space. *)
Definition isSpace (c : ascii) : bool :=
  let n := nat_of_ascii c in
  ((9 <=? n)%nat && (n <=? 13)%nat) || (n =? 32)%nat.

Definition hexDigit (c : ascii) : option Z :=
  let n := nat_of_ascii c in
  if ((48 <=? n) && (n <=? 57))%nat then Some (Z.of_nat n - 48)%Z
  else if ((65 <=? n) && (n <=? 70))%nat then Some (Z.of_nat n - 55)%Z
  else if ((97 <=? n) && (n <=? 102))%nat then Some (Z.of_nat n - 87)%Z
  else None.

Fixpoint trimStart (s : string) : string :=
  match s with
  | String c r => if isSpace c then trimStart r else s
  | EmptyString => s
  end.

Definition stripSign (s : string) : Z * string :=
  match s with
  | String c r =>
      if (c =? "-")%char then ((-1)%Z, r)
      else if (c =? "+")%char then (1%Z, r)
      else (1%Z, s)
  | EmptyString => (1%Z, s)
  end.

Definition stripHexPrefix (s : string) : string :=
  match s with
  | String c0 (String c1 r) =>
      if ((c0 =? "0") && ((c1 =? "x") || (c1 =? "X")))%char then r else s
  | _ => s
  end.

(** The value of the longest prefix of hexadecimal digits; [acc] is the
    value of the digits read so far, [None] when there is none yet. *)
Fixpoint hexPrefix (s : string) (acc : option Z) : option Z :=
  match s with
  | String c r =>
      match hexDigit c with
      | Some d =>
          hexPrefix r (Some (16 * match acc with
                                  | Some a => a
                                  | None => 0
                                  end + d)%Z)
      | None => acc
      end
  | EmptyString => acc
  end.

(** [parseInt(s, 16)], exact while the value is below [2^53]. *)
Definition parseInt16 (s : string) : option Z :=
  let (sign, digits) := stripSign (trimStart s) in
  option_map (Z.mul sign) (hexPrefix (stripHexPrefix digits) None).

(** The [r], [g] and [b] of [animate]. *)
Definition dotRGB (color : string) : option Z * option Z * option Z :=
  (parseInt16 (slice color 1 3), parseInt16 (slice color 3 5),
   parseInt16 (slice color 5 7)).

(* ================================================================= *)
(** ** The functions as the specification words them *)

Definition euclidean (x1 y1 x2 y2 : R) : R :=
  sqrt ((x1 - x2) * (x1 - x2) + (y1 - y2) * (y1 - y2)).

(** [max(0, 1 - distance/maxDistance)] with [maxDistance = 100]. *)
Definition specMouseInfluence (distance : R) : R :=
  Rmax 0 (1 - distance / 100).

(** Contribution of one ripple at a point: for a live ripple near its
    ring, [(1-progress) * intensity * (1 - |distance - radius|/40)]. *)
Definition specContribution (x y now : R) (r : Ripple) : R :=
  let age := now - ripple_time r in
  let progress := age / 2000 in
  let currentRadius := progress * 150 in
  let distance := euclidean x y (ripple_x r) (ripple_y r) in
  if Rlt_dec age 2000 then
    if Rlt_dec (Rabs (distance - currentRadius)) 40 then
      (1 - progress) * intensity r *
      (1 - Rabs (distance - currentRadius) / 40)
    else 0
  else 0.

Definition Rsum (l : list R) : R := fold_right Rplus 0 l.

(** The 25 positions of a 100x100 surface at spacing 20, in the order
    the loops push them. *)
Definition scenarioGrid : list (R * R) :=
  [ (10, 10); (10, 30); (10, 50); (10, 70); (10, 90);
    (30, 10); (30, 30); (30, 50); (30, 70); (30, 90);
    (50, 10); (50, 30); (50, 50); (50, 70); (50, 90);
    (70, 10); (70, 30); (70, 50); (70, 70); (70, 90);
    (90, 10); (90, 30); (90, 50); (90, 70); (90, 90) ].

(* ================================================================= *)
(** ** Sample inputs *)

Definition sampleBox : Rect := mkRect 0 0 20 20.

(** A document in which every id names a canvas inside a 20x20 parent. *)
Definition sampleBrowser : Browser :=
  mkBrowser (fun _ => Some (mkElement true (Some sampleBox)))
            None (fun _ => 0) 0 1.

(** A document without elements. *)
Definition emptyBrowser : Browser :=
  mkBrowser (fun _ => None) None (fun _ => 0) 0 1.

(** The object [new ProfileDots(id)] builds in [sampleBrowser]: default
    options, one dot at (10, 10), the first frame painted. *)
Definition sampleStart : ProfileDots :=
  mkProfileDots (20 * 1) (20 * 1) 1 "transparent" "#FFD700" 20 0.05 false
    (0 + 0.05) (mkMouse 0 0 false) []
    [mkDot (gridCoord 20 0) (gridCoord 20 0) (gridCoord 20 0)
           (gridCoord 20 0) (0 * PI * 2)]
    1 (Some 1%nat).

(** A press at (85, 10) at time 0. *)
Definition samplePress : Event :=
  MouseDown (mkMouseEvent 85 10) sampleBox 0 0.

Definition sampleRipple : Ripple := mkRipple (85 - 0) (10 - 0) 0 2.

(** [sampleStart] after the pointer moved onto the dot and the canvas
    was pressed twice at (85, 10) at time 0. *)
Definition sampleBusy : ProfileDots :=
  onMouseDown
    (onMouseDown (onMouseMove sampleStart (mkMouseEvent 10 10) sampleBox)
                 (mkMouseEvent 85 10) sampleBox 0 0)
    (mkMouseEvent 85 10) sampleBox 0 0.

(* ================================================================= *)
(** ** The numeric functions on binary64 *)

Module Binary64.

Local Open Scope float_scope.

Definition Math_PI : float := 0x1.921fb54442d18p+1.

(** [Math.max] and [Math.min] of two numbers: NaN if either is NaN, and
    [-0] below [+0]. *)
Definition Math_max (a b : float) : float :=
  if (is_nan a || is_nan b)%bool then nan
  else if a <? b then b
  else if b <? a then a
  else if (is_zero a && get_sign a)%bool then b else a.

Definition Math_min (a b : float) : float :=
  if (is_nan a || is_nan b)%bool then nan
  else if a <? b then a
  else if b <? a then b
  else if (is_zero a && get_sign a)%bool then a else b.

Record Dot := mkDot {
  dot_x : float;
  dot_y : float;
  originalX : float;
  originalY : float;
  phase : float
}.

Record Ripple := mkRipple {
  ripple_x : float;
  ripple_y : float;
  ripple_time : float;
  intensity : float
}.

Record Mouse := mkMouse {
  mouse_x : float;
  mouse_y : float;
  isDown : bool
}.

Section Grid.

Variable random : nat -> float.
Variable spacing : float.

Definition newDot (x y : float) (k : nat) : Dot :=
  mkDot x y x y (random k * Math_PI * 2).

Fixpoint innerLoop (fuel : nat) (height x y : float) (dots : list Dot)
         (k : nat) : option (list Dot * nat) :=
  match fuel with
  | O => None
  | S fuel' =>
      if y <? height
      then innerLoop fuel' height x (y + spacing)
                     (dots ++ [newDot x y k]) (S k)
      else Some (dots, k)
  end.

Fixpoint outerLoop (fuel fuelY : nat) (width height x : float)
         (dots : list Dot) (k : nat) : option (list Dot * nat) :=
  match fuel with
  | O => None
  | S fuel' =>
      if x <? width
      then match innerLoop fuelY height x (spacing / 2) dots k with
           | None => None
           | Some (dots', k') =>
               outerLoop fuel' fuelY width height (x + spacing) dots' k'
           end
      else Some (dots, k)
  end.

Definition initDots (fuel : nat) (width height : float)
  : option (list Dot) :=
  match outerLoop fuel fuel width height (spacing / 2) [] 0 with
  | None => None
  | Some (dots, _) => Some dots
  end.

End Grid.

Definition position (d : Dot) : float * float := (originalX d, originalY d).

Definition getMouseInfluence (mouse : Mouse) (x y : float) : float :=
  let dx := x - mouse_x mouse in
  let dy := y - mouse_y mouse in
  let distance := PrimFloat.sqrt (dx * dx + dy * dy) in
  let maxDistance := 100 in
  Math_max 0 (1 - distance / maxDistance).

Definition rippleStep (x y currentTime : float) (totalInfluence : float)
           (ripple : Ripple) : float :=
  let age := currentTime - ripple_time ripple in
  let maxAge := 2000 in
  if age <? maxAge then
    let dx := x - ripple_x ripple in
    let dy := y - ripple_y ripple in
    let distance := PrimFloat.sqrt (dx * dx + dy * dy) in
    let progress := age / maxAge in
    let rippleRadius := progress * 150 in
    let rippleWidth := 40 in
    if PrimFloat.abs (distance - rippleRadius) <? rippleWidth then
      let rippleStrength := (1 - progress) * intensity ripple in
      let proximity := 1 - PrimFloat.abs (distance - rippleRadius) / rippleWidth in
      totalInfluence + rippleStrength * proximity
    else totalInfluence
  else totalInfluence.

Definition getRippleInfluence (ripples : list Ripple)
           (x y currentTime : float) : float :=
  let totalInfluence := fold_left (rippleStep x y currentTime) ripples 0 in
  Math_min totalInfluence 2.

(** The exact value of a finite double. *)
Definition exact (f : float) : option Q :=
  match Prim2SF f with
  | S754_zero _ => Some 0%Q
  | S754_finite s m e =>
      Some ((if s then -1 else 1) * inject_Z (Zpos m) * Qpower 2 e)%Q
  | _ => None
  end.

(** The square of the Euclidean distance between two points given by
    finite doubles, without rounding. *)
Definition exactSqDistance (x1 y1 x2 y2 : float) : option Q :=
  match exact x1, exact y1, exact x2, exact y2 with
  | Some a, Some b, Some c, Some d =>
      Some (Qred ((a - c) * (a - c) + (b - d) * (b - d)))%Q
  | _, _, _, _ => None
  end.

Definition scenarioGrid : list (float * float) :=
  [ (10, 10); (10, 30); (10, 50); (10, 70); (10, 90);
    (30, 10); (30, 30); (30, 50); (30, 70); (30, 90);
    (50, 10); (50, 30); (50, 50); (50, 70); (50, 90);
    (70, 10); (70, 30); (70, 50); (70, 70); (70, 90);
    (90, 10); (90, 30); (90, 50); (90, 70); (90, 90) ].

End Binary64.

(* ################################################################# *)
(** * Part II: properties *)

(* ================================================================= *)
(** ** Numbers and lists *)

Lemma Rceil_spec (r : R) : IZR (Rceil r) - 1 < r <= IZR (Rceil r).
Proof.
  unfold Rceil. rewrite minus_IZR.
  destruct (archimed (- r)) as [Hgt Hle]. lra.
Qed.

Lemma Rceil_unique (r : R) (z : Z) : IZR z - 1 < r <= IZR z -> Rceil r = z.
Proof.
  intros [Hlo Hhi]. unfold Rceil.
  assert (Hup : (1 - z)%Z = up (- r)).
  { apply tech_up; rewrite minus_IZR; lra. }
  lia.
Qed.

Lemma Rtrunc_IZR (z : Z) : Rtrunc (IZR z) = z.
Proof.
  unfold Rtrunc. destruct (Rle_dec 0 (IZR z)) as [Hle|Hlt].
  - symmetry. apply Int_part_spec. lra.
  - rewrite <- opp_IZR.
    assert (H : (- z)%Z = Int_part (IZR (- z)))
      by (apply Int_part_spec; lra).
    lia.
Qed.

(** A whole number of pixels in the range of the attribute is kept. *)
Lemma canvasLength_exact (z default : Z) (v : R) :
  v = IZR z -> (0 <= z <= 2147483647)%Z -> canvasLength v default = v.
Proof.
  intros -> Hz. unfold canvasLength. rewrite Rtrunc_IZR.
  rewrite Z.mod_small by lia.
  destruct (Z.leb_spec z 2147483647); [reflexivity|lia].
Qed.

Lemma Rltb_true (a b : R) : Rltb a b = true <-> a < b.
Proof.
  unfold Rltb. destruct (Rlt_dec a b); split; intros; try assumption;
    try reflexivity; try discriminate; contradiction.
Qed.

Lemma flat_map_over_map {A B C : Type} (f : B -> list C) (g : A -> B)
      (l : list A) :
  flat_map f (map g l) = flat_map (fun a => f (g a)) l.
Proof.
  induction l as [|a l IH]; simpl; [reflexivity|]. rewrite IH. reflexivity.
Qed.

(* ================================================================= *)
(** ** Grid generation *)

Section GridFacts.

Variable random : nat -> R.
Variable spacing : R.
Hypothesis spacing_pos : 0 < spacing.

Lemma gridCount_below (extent : R) (j : nat) :
  (j < gridCount spacing extent)%nat -> gridCoord spacing j < extent.
Proof.
  unfold gridCount, gridCoord. intros Hj.
  destruct (Rceil_spec (extent / spacing - 1 / 2)) as [Hlo Hhi].
  set (c := Rceil (extent / spacing - 1 / 2)) in *.
  assert (Hc : (Z.of_nat j + 1 <= c)%Z) by lia.
  apply IZR_le in Hc. rewrite plus_IZR, <- INR_IZR_INZ in Hc.
  assert (He : extent = extent / spacing * spacing) by (field; lra).
  assert (Hq : INR j + 1 / 2 < extent / spacing) by lra.
  nra.
Qed.

Lemma gridCount_stop (extent : R) :
  ~ gridCoord spacing (gridCount spacing extent) < extent.
Proof.
  unfold gridCount, gridCoord. intros Hlt.
  destruct (Rceil_spec (extent / spacing - 1 / 2)) as [Hlo Hhi].
  set (c := Rceil (extent / spacing - 1 / 2)) in *.
  assert (Hc : (c <= Z.of_nat (Z.to_nat c))%Z) by lia.
  apply IZR_le in Hc. rewrite <- INR_IZR_INZ in Hc.
  assert (He : extent = extent / spacing * spacing) by (field; lra).
  assert (Hq : extent / spacing <= INR (Z.to_nat c) + 1 / 2) by lra.
  nra.
Qed.

Lemma gridCoord_0 : spacing / 2 = gridCoord spacing 0.
Proof. unfold gridCoord. simpl. lra. Qed.

Lemma gridCoord_S (i : nat) :
  gridCoord spacing i + spacing = gridCoord spacing (S i).
Proof. unfold gridCoord. rewrite S_INR. lra. Qed.

Lemma gridCoord_mono (i j : nat) :
  (i <= j)%nat -> gridCoord spacing i <= gridCoord spacing j.
Proof.
  intros Hij. unfold gridCoord. apply le_INR in Hij. nra.
Qed.

Lemma gridCoord_inj (i j : nat) :
  gridCoord spacing i = gridCoord spacing j -> i = j.
Proof.
  unfold gridCoord. intros H. apply INR_eq. nra.
Qed.

Lemma gridCoord_pos (i : nat) : 0 < gridCoord spacing i.
Proof.
  unfold gridCoord. pose proof (pos_INR i). nra.
Qed.

(** [gridCount extent] counts exactly the coordinates below [extent]. *)
Lemma gridCount_iff (extent : R) (j : nat) :
  gridCoord spacing j < extent <-> (j < gridCount spacing extent)%nat.
Proof.
  split; [|apply gridCount_below].
  intros Hlt.
  destruct (Nat.lt_ge_cases j (gridCount spacing extent)) as [|Hge];
    [assumption|].
  exfalso. apply (gridCount_stop extent).
  apply gridCoord_mono in Hge. lra.
Qed.

(** The inner loop from [gridCoord j0] pushes the rest of the column. *)
Lemma innerLoop_run (height x : R) (n : nat) :
  forall (j0 fuel : nat) (dots : list Dot) (k : nat),
    (j0 + n = gridCount spacing height)%nat ->
    (n < fuel)%nat ->
    innerLoop random spacing fuel height x (gridCoord spacing j0) dots k =
    Some (dots ++
          map (fun j => newDot random x (gridCoord spacing (j0 + j)) (k + j))
              (seq 0 n),
          (k + n)%nat).
Proof.
  induction n as [|n IH]; intros j0 fuel dots k Hn Hfuel;
    (destruct fuel as [|fuel]; [lia|]); simpl.
  - destruct (Rlt_dec (gridCoord spacing j0) height) as [Hlt|_].
    + apply gridCount_iff in Hlt. lia.
    + rewrite app_nil_r. do 2 f_equal. lia.
  - destruct (Rlt_dec (gridCoord spacing j0) height) as [_|Hge].
    + rewrite gridCoord_S, (IH (S j0) fuel) by lia.
      rewrite <- app_assoc. simpl. rewrite <- seq_shift, map_map.
      replace (k + S n)%nat with (S (k + n)) by lia.
      rewrite !Nat.add_0_r.
      assert (Hm : map (fun j => newDot random x
                                   (gridCoord spacing (S (j0 + j)))
                                   (S (k + j))) (seq 0 n) =
                   map (fun j => newDot random x
                                   (gridCoord spacing (j0 + S j))
                                   (k + S j)) (seq 0 n)).
      { apply map_ext; intros j; rewrite !Nat.add_succ_r; reflexivity. }
      rewrite Hm. reflexivity.
    + exfalso. apply Hge. apply gridCount_iff. lia.
Qed.

(** The outer loop from [gridCoord i0] pushes the remaining columns. *)
Lemma outerLoop_run (width height : R) (n : nat) :
  forall (i0 fuel fuelY : nat) (dots : list Dot) (k : nat),
    (i0 + n = gridCount spacing width)%nat ->
    (n < fuel)%nat ->
    (gridCount spacing height < fuelY)%nat ->
    outerLoop random spacing fuel fuelY width height
              (gridCoord spacing i0) dots k =
    Some (dots ++
          flat_map (fun i => gridColumn random spacing
                               (gridCoord spacing (i0 + i))
                               (gridCount spacing height)
                               (k + i * gridCount spacing height))
                   (seq 0 n),
          (k + n * gridCount spacing height)%nat).
Proof.
  induction n as [|n IH]; intros i0 fuel fuelY dots k Hn Hfuel HfuelY;
    (destruct fuel as [|fuel]; [lia|]); simpl.
  - destruct (Rlt_dec (gridCoord spacing i0) width) as [Hlt|_].
    + apply gridCount_iff in Hlt. lia.
    + rewrite app_nil_r. do 2 f_equal. lia.
  - destruct (Rlt_dec (gridCoord spacing i0) width) as [_|Hge].
    + rewrite gridCoord_0.
      rewrite (innerLoop_run height (gridCoord spacing i0)
                             (gridCount spacing height) 0) by lia.
      rewrite gridCoord_S, (IH (S i0) fuel) by lia.
      rewrite <- app_assoc, <- seq_shift, flat_map_over_map.
      rewrite !Nat.add_0_r.
      replace (k + (gridCount spacing height + n * gridCount spacing height))%nat
        with (k + gridCount spacing height + n * gridCount spacing height)%nat
        by lia.
      do 2 f_equal.
      change (gridColumn random spacing (gridCoord spacing i0)
                         (gridCount spacing height) k)
        with (map (fun j => newDot random (gridCoord spacing i0)
                                   (gridCoord spacing (0 + j)) (k + j))
                  (seq 0 (gridCount spacing height))).
      do 2 (apply (f_equal2 (@app Dot)); [reflexivity|]).
      apply flat_map_ext. intros i.
      f_equal; [f_equal|]; lia.
    + exfalso. apply Hge. apply gridCount_iff. lia.
Qed.

(** With enough fuel [initDots] returns the grid in closed form. *)
Lemma initDots_grid (fuel : nat) (width height : R) :
  (gridCount spacing width < fuel)%nat ->
  (gridCount spacing height < fuel)%nat ->
  initDots random spacing fuel width height =
  Some (gridDots random spacing (gridCount spacing width)
                 (gridCount spacing height)).
Proof.
  intros Hx Hy. unfold initDots. rewrite gridCoord_0.
  rewrite (outerLoop_run width height (gridCount spacing width) 0) by lia.
  reflexivity.
Qed.

Lemma gridColumn_length (x : R) (ny k : nat) :
  length (gridColumn random spacing x ny k) = ny.
Proof. unfold gridColumn. rewrite length_map, length_seq. reflexivity. Qed.

Lemma gridDots_length (nx ny : nat) :
  length (gridDots random spacing nx ny) = (nx * ny)%nat.
Proof.
  unfold gridDots. generalize 0%nat as i0.
  induction nx as [|nx IH]; intros i0; simpl; [reflexivity|].
  rewrite length_app, gridColumn_length, IH. reflexivity.
Qed.

Lemma gridDots_In (nx ny : nat) (d : Dot) :
  In d (gridDots random spacing nx ny) <->
  exists i j, (i < nx)%nat /\ (j < ny)%nat /\
              d = newDot random (gridCoord spacing i) (gridCoord spacing j)
                         (i * ny + j).
Proof.
  unfold gridDots, gridColumn. rewrite in_flat_map. split.
  - intros (i & Hi & Hd). apply in_map_iff in Hd.
    destruct Hd as (j & Hd & Hj). apply in_seq in Hi, Hj.
    exists i, j. repeat split; try lia. symmetry; exact Hd.
  - intros (i & j & Hi & Hj & ->). exists i. split.
    + apply in_seq. lia.
    + apply in_map_iff. exists j. split; [reflexivity|].
      apply in_seq. lia.
Qed.

(** The grid positions are exactly the pairs of coordinates in bounds. *)
Lemma gridDots_positions (width height : R) (i j : nat) :
  In (gridCoord spacing i, gridCoord spacing j)
     (map position (gridDots random spacing (gridCount spacing width)
                             (gridCount spacing height))) <->
  gridCoord spacing i < width /\ gridCoord spacing j < height.
Proof.
  rewrite in_map_iff. split.
  - intros (d & Hpos & Hd). apply gridDots_In in Hd.
    destruct Hd as (i' & j' & Hi & Hj & ->). unfold position in Hpos.
    simpl in Hpos. injection Hpos as Hx Hy.
    apply gridCoord_inj in Hx, Hy. subst i' j'.
    split; apply gridCount_iff; assumption.
  - intros [Hx Hy]. apply gridCount_iff in Hx, Hy.
    exists (newDot random (gridCoord spacing i) (gridCoord spacing j)
                   (i * gridCount spacing height + j)).
    split; [reflexivity|]. apply gridDots_In. exists i, j. auto.
Qed.

End GridFacts.

Lemma gridCount_20_100 : gridCount 20 100 = 5%nat.
Proof.
  unfold gridCount. rewrite (Rceil_unique _ 5) by lra. reflexivity.
Qed.

Lemma gridCount_20_105 : gridCount 20 105 = 5%nat.
Proof.
  unfold gridCount. rewrite (Rceil_unique _ 5) by lra. reflexivity.
Qed.

Lemma initDots_scenario (random : nat -> R) (fuel : nat) :
  (5 < fuel)%nat ->
  option_map (map position) (initDots random 20 fuel 100 100) =
  Some scenarioGrid.
Proof.
  intros Hfuel.
  rewrite initDots_grid by (try lra; rewrite gridCount_20_100; lia).
  rewrite gridCount_20_100. unfold scenarioGrid. simpl.
  assert (H0 : gridCoord 20 0 = 10) by (unfold gridCoord; simpl; lra).
  assert (H1 : gridCoord 20 1 = 30) by (unfold gridCoord; simpl; lra).
  assert (H2 : gridCoord 20 2 = 50) by (unfold gridCoord; simpl; lra).
  assert (H3 : gridCoord 20 3 = 70) by (unfold gridCoord; simpl; lra).
  assert (H4 : gridCoord 20 4 = 90) by (unfold gridCoord; simpl; lra).
  unfold position. simpl. rewrite H0, H1, H2, H3, H4. reflexivity.
Qed.

(** C1 (as the code has it): for a surface of width [W > 0], height
    [H > 0] and a spacing [S] that is a positive integer, all three at
    most [2^50] (so that every coordinate the loops form is a double and
    no sum is rounded), [initDots] returns (with any fuel above both
    counts) the dots at [(S/2 + i*S, S/2 + j*S)] for exactly the [i],
    [j] that keep both coordinates below [W] and [H]; there are
    [gridCount S W * gridCount S H] of them, where
    [gridCount S E = max(0, ceil(E/S - 1/2))]; every dot lies in
    [[0,W) x [0,H)]; and a 100x100 surface at spacing 20 gets the 25
    points (10,10), (10,30), ..., (90,90). *)
Theorem initDots_grid_correct :
  (forall (random : nat -> R) (n : Z) (W H : R),
      let S := IZR n in
      (0 < n)%Z -> S <= exactRange ->
      0 < W <= exactRange -> 0 < H <= exactRange ->
      exists dots : list Dot,
        (forall fuel : nat,
            (Nat.max (gridCount S W) (gridCount S H) < fuel)%nat ->
            initDots random S fuel W H = Some dots) /\
        length dots = (gridCount S W * gridCount S H)%nat /\
        (forall i j : nat,
            In (gridCoord S i, gridCoord S j) (map position dots) <->
            gridCoord S i < W /\ gridCoord S j < H) /\
        (forall d : Dot,
            In d dots ->
            (exists i j : nat, position d = (gridCoord S i, gridCoord S j)) /\
            0 <= originalX d < W /\ 0 <= originalY d < H /\
            dot_x d = originalX d /\ dot_y d = originalY d)) /\
  (forall (random : nat -> R) (fuel : nat),
      (5 < fuel)%nat ->
      option_map (map position) (initDots random 20 fuel 100 100) =
      Some scenarioGrid /\
      length scenarioGrid = 25%nat).
Proof.
  split.
  - intros random n W H S Hn _ _ _.
    assert (HS : 0 < S) by (apply IZR_lt; exact Hn).
    exists (gridDots random S (gridCount S W) (gridCount S H)).
    split; [|split; [|split]].
    + intros fuel Hfuel. apply initDots_grid; [assumption| |]; lia.
    + apply gridDots_length.
    + intros i j. apply gridDots_positions. assumption.
    + intros d Hd. apply gridDots_In in Hd.
      destruct Hd as (i & j & Hi & Hj & ->).
      apply (gridCount_below S HS) in Hi, Hj.
      pose proof (gridCoord_pos S HS i). pose proof (gridCoord_pos S HS j).
      simpl. repeat split; try lra. exists i, j. reflexivity.
  - intros random fuel Hfuel. split; [|reflexivity].
    apply initDots_scenario. assumption.
Qed.

(** The grid theorem at a 105x100 surface with spacing 20. *)
Lemma initDots_grid_correct_witness :
  exists dots : list Dot,
    initDots (fun _ => 0) 20 6 105 100 = Some dots /\
    length dots = 25%nat.
Proof.
  destruct (proj1 initDots_grid_correct (fun _ => 0) 20%Z 105 100)
    as (dots & Hrun & Hlen & _); try (unfold exactRange; lra); try lia.
  exists dots. split.
  - apply Hrun. rewrite gridCount_20_105, gridCount_20_100. simpl. lia.
  - rewrite Hlen, gridCount_20_105, gridCount_20_100. reflexivity.
Defined.

(** C1 as stated fails: a 105x100 surface at spacing 20 gets 5 columns
    (x = 10, 30, 50, 70, 90; the next, 110, is out of bounds), so 25
    dots, where [ceil(105/20) * ceil(100/20)] is 30. *)
Lemma initDots_count_counterexample :
  exists dots : list Dot,
    initDots (fun _ => 0) 20 6 105 100 = Some dots /\
    length dots = 25%nat /\
    specCount 20 105 100 = 30%nat /\
    length dots <> specCount 20 105 100.
Proof.
  exists (gridDots (fun _ => 0) 20 (gridCount 20 105) (gridCount 20 100)).
  assert (Hspec : specCount 20 105 100 = 30%nat).
  { unfold specCount.
    rewrite (Rceil_unique (105 / 20) 6), (Rceil_unique (100 / 20) 5) by lra.
    reflexivity. }
  assert (Hlen : length (gridDots (fun _ => 0) 20 (gridCount 20 105)
                                  (gridCount 20 100)) = 25%nat).
  { rewrite gridDots_length, gridCount_20_105, gridCount_20_100.
    reflexivity. }
  split; [|split; [|split]].
  - apply initDots_grid; [lra| |];
      rewrite ?gridCount_20_105, ?gridCount_20_100; lia.
  - exact Hlen.
  - exact Hspec.
  - rewrite Hlen, Hspec. discriminate.
Qed.

(* ================================================================= *)
(** ** Mouse influence *)

Lemma euclidean_nonneg (x1 y1 x2 y2 : R) : 0 <= euclidean x1 y1 x2 y2.
Proof. unfold euclidean. apply sqrt_pos. Qed.

Lemma euclidean_same (x y : R) : euclidean x y x y = 0.
Proof.
  unfold euclidean.
  replace ((x - x) * (x - x) + (y - y) * (y - y)) with 0 by ring.
  apply sqrt_0.
Qed.

Lemma euclidean_zero (x1 y1 x2 y2 : R) :
  euclidean x1 y1 x2 y2 = 0 -> x1 = x2 /\ y1 = y2.
Proof.
  unfold euclidean. intros H.
  assert (Hnn : 0 <= (x1 - x2) * (x1 - x2) + (y1 - y2) * (y1 - y2))
    by (apply Rplus_le_le_0_compat; apply Rle_0_sqr).
  apply (sqrt_eq_0 _ Hnn) in H.
  destruct (Rplus_sqr_eq_0 (x1 - x2) (y1 - y2) H) as [Hx Hy].
  split; lra.
Qed.

Lemma getMouseInfluence_spec (self : ProfileDots) (x y : R) :
  getMouseInfluence self x y =
  specMouseInfluence
    (euclidean x y (mouse_x (mouse self)) (mouse_y (mouse self))).
Proof. reflexivity. Qed.

Lemma specMouseInfluence_one (d : R) :
  0 <= d -> (specMouseInfluence d = 1 <-> d = 0).
Proof.
  intros Hd. unfold specMouseInfluence, Rmax.
  destruct (Rle_dec 0 (1 - d / 100)); split; intros; lra.
Qed.

Lemma specMouseInfluence_zero (d : R) :
  specMouseInfluence d = 0 <-> 100 <= d.
Proof.
  unfold specMouseInfluence, Rmax.
  destruct (Rle_dec 0 (1 - d / 100)); split; intros; lra.
Qed.

Lemma specMouseInfluence_antitone (d1 d2 : R) :
  d1 <= d2 -> specMouseInfluence d2 <= specMouseInfluence d1.
Proof.
  intros H. unfold specMouseInfluence, Rmax.
  destruct (Rle_dec 0 (1 - d2 / 100)), (Rle_dec 0 (1 - d1 / 100)); lra.
Qed.

Lemma specMouseInfluence_range (d : R) :
  0 <= d -> 0 <= specMouseInfluence d <= 1.
Proof.
  intros H. unfold specMouseInfluence, Rmax.
  destruct (Rle_dec 0 (1 - d / 100)); lra.
Qed.



(* ================================================================= *)
(** ** Ripple influence *)

Lemma rippleStep_contribution (x y now total : R) (r : Ripple) :
  rippleStep x y now total r = total + specContribution x y now r.
Proof.
  unfold rippleStep, specContribution, euclidean.
  destruct (Rlt_dec (now - ripple_time r) 2000); [|lra].
  match goal with |- context [Rlt_dec ?a 40] => destruct (Rlt_dec a 40) end;
    lra.
Qed.

Lemma fold_rippleStep (x y now : R) (rs : list Ripple) :
  forall total : R,
    fold_left (rippleStep x y now) rs total =
    total + Rsum (map (specContribution x y now) rs).
Proof.
  induction rs as [|r rs IH]; intros total; simpl.
  - lra.
  - rewrite IH, rippleStep_contribution. lra.
Qed.

Lemma getRippleInfluence_sum (self : ProfileDots) (x y now : R) :
  getRippleInfluence self x y now =
  Rmin (Rsum (map (specContribution x y now) (ripples self))) 2.
Proof.
  unfold getRippleInfluence. rewrite fold_rippleStep. f_equal. lra.
Qed.

Lemma specContribution_expired (x y now : R) (r : Ripple) :
  now >= ripple_time r + 2000 -> specContribution x y now r = 0.
Proof.
  intros H. unfold specContribution.
  destruct (Rlt_dec (now - ripple_time r) 2000); [lra|reflexivity].
Qed.

Lemma specContribution_nonneg (x y now : R) (r : Ripple) :
  0 <= intensity r -> 0 <= specContribution x y now r.
Proof.
  intros Hi. unfold specContribution.
  destruct (Rlt_dec (now - ripple_time r) 2000) as [Hage|]; [|lra].
  match goal with |- context [Rlt_dec ?a 40] =>
    destruct (Rlt_dec a 40) as [Hnear|]; [|lra];
    pose proof (Rabs_pos (a - 0)) as Habs
  end.
  rewrite Rminus_0_r in Habs.
  apply Rmult_le_pos; [apply Rmult_le_pos|]; lra.
Qed.

Lemma Rsum_app (l1 l2 : list R) : Rsum (l1 ++ l2) = Rsum l1 + Rsum l2.
Proof.
  induction l1 as [|a l1 IH]; simpl; [lra|]. rewrite IH. lra.
Qed.

Lemma Rsum_nonneg (l : list R) : Forall (fun a => 0 <= a) l -> 0 <= Rsum l.
Proof.
  induction 1 as [|a l Ha _ IH]; simpl; lra.
Qed.

(** The bounds hold for every ripple list without negative intensity. *)
Lemma getRippleInfluence_bounds (self : ProfileDots) (x y now : R) :
  Forall (fun r => 0 <= intensity r) (ripples self) ->
  0 <= getRippleInfluence self x y now <= 2.
Proof.
  intros Hall. rewrite getRippleInfluence_sum.
  assert (Hsum : 0 <= Rsum (map (specContribution x y now) (ripples self))).
  { apply Rsum_nonneg. apply Forall_map.
    eapply Forall_impl; [|exact Hall].
    intros r Hr. apply specContribution_nonneg. exact Hr. }
  unfold Rmin. destruct (Rle_dec _ 2); lra.
Qed.

(* ================================================================= *)
(** ** What each method leaves unchanged *)

Lemma resize_Ok (fuel : nat) (self self' : ProfileDots)
      (parent : option Rect) (random : nat -> R) :
  resize fuel self parent random = Ok self' ->
  exists (rect : Rect) (ds : list Dot),
    parent = Some rect /\
    initDots random (gridSpacing self) fuel
             (rect_width rect) (rect_height rect) = Some ds /\
    self' = set_dots
              (set_canvas self
                          (canvasLength (rect_width rect * dpr self) 300)
                          (canvasLength (rect_height rect * dpr self) 150)
                          (dpr self)) ds.
Proof.
  unfold resize. destruct parent as [rect|]; [|discriminate].
  simpl. destruct (initDots _ _ _ _ _) as [ds|] eqn:Hinit; [|discriminate].
  intros H. injection H as <-. exists rect, ds. auto.
Qed.

Lemma resize_ripples (fuel : nat) (self self' : ProfileDots)
      (parent : option Rect) (random : nat -> R) :
  resize fuel self parent random = Ok self' ->
  ripples self' = ripples self /\ mouse self' = mouse self.
Proof.
  intros H. apply resize_Ok in H. destruct H as (rect & ds & _ & _ & ->).
  split; reflexivity.
Qed.

Lemma animateFrame_ripples (self : ProfileDots) (now : R) (id : nat) :
  ripples (fst (animateFrame self now id)) = ripples self.
Proof. reflexivity. Qed.

Lemma animateFrame_mouse (self : ProfileDots) (now : R) (id : nat) :
  mouse (fst (animateFrame self now id)) = mouse self.
Proof. reflexivity. Qed.

Lemma animateFrame_dots (self : ProfileDots) (now : R) (id : nat) :
  dots (fst (animateFrame self now id)) =
  map (fun d => mkDot (originalX d) (originalY d)
                      (originalX d) (originalY d) (phase d))
      (dots self).
Proof.
  simpl. rewrite map_map. reflexivity.
Qed.

Lemma construct_Live (fuel : nat) (b : Browser) (canvasId : string)
      (options : Options) (self : ProfileDots) (eff : Effects) :
  construct fuel b canvasId options = Ok (Live self, eff) ->
  ripples self = [] /\ mouse self = mkMouse 0 0 false.
Proof.
  unfold construct. destruct (getElementById b canvasId) as [el|];
    [|discriminate].
  destruct (has2dContext el); [|discriminate].
  unfold init.
  match goal with |- context [resize ?f ?s ?p ?r] =>
    destruct (resize f s p r) as [self1| |] eqn:Hres; simpl;
      try discriminate
  end.
  apply resize_ripples in Hres. destruct Hres as [Hr Hm].
  intros H. injection H as <- _. simpl. simpl in Hr, Hm. auto.
Qed.

Lemma onMouseDown_ripples (self : ProfileDots) (e : MouseEvent) (rect : Rect)
      (pushed now : R) :
  ripples (onMouseDown self e rect pushed now) =
  filter (fun r => Rltb (now - ripple_time r) 3000)
         (ripples self ++ [mkRipple (clientX e - rect_left rect)
                                    (clientY e - rect_top rect) pushed 2]).
Proof. reflexivity. Qed.

Lemma onTouchStart_Ok (self self' : ProfileDots) (touches : list Touch)
      (rect : Rect) (now : R) :
  onTouchStart self touches rect now = Ok self' ->
  exists (touch : Touch) (rest : list Touch),
    touches = touch :: rest /\
    self' = set_ripples self
              (ripples self ++
               [mkRipple (touch_clientX touch - rect_left rect)
                         (touch_clientY touch - rect_top rect) now 2]).
Proof.
  unfold onTouchStart. destruct touches as [|touch rest]; [discriminate|].
  intros H. injection H as <-. exists touch, rest. auto.
Qed.

(** Every ripple a handler creates has intensity 2, and nothing else
    writes an intensity. *)
Lemma handle_intensity (fuel : nat) (self self' : ProfileDots) (ev : Event)
      (out : list Paint) :
  handle fuel self ev = Ok (self', out) ->
  Forall (fun r => intensity r = 2) (ripples self) ->
  Forall (fun r => intensity r = 2) (ripples self').
Proof.
  intros Hstep Hall. destruct ev as [parent random|e rect|e rect pushed now|
                                     |touches rect now|now id]; simpl in Hstep.
  - destruct (resize fuel self parent random) as [s| |] eqn:Hres;
      simpl in Hstep; try discriminate.
    injection Hstep as <- _. apply resize_ripples in Hres.
    destruct Hres as [-> _]. exact Hall.
  - injection Hstep as <- _. exact Hall.
  - injection Hstep as <- _. rewrite onMouseDown_ripples.
    apply Forall_forall. intros r Hr. apply filter_In in Hr.
    destruct Hr as [Hr _]. apply in_app_or in Hr. destruct Hr as [Hr|Hr].
    + rewrite Forall_forall in Hall. apply Hall. exact Hr.
    + destruct Hr as [<-|[]]. reflexivity.
  - injection Hstep as <- _. exact Hall.
  - destruct (onTouchStart self touches rect now) as [s| |] eqn:Ht;
      simpl in Hstep; try discriminate.
    injection Hstep as <- _. apply onTouchStart_Ok in Ht.
    destruct Ht as (touch & rest & _ & ->). simpl.
    apply Forall_app. split; [exact Hall|].
    constructor; [reflexivity|constructor].
  - injection Hstep as <- _. exact Hall.
Qed.

Lemma Reachable_intensity (self : ProfileDots) :
  Reachable self -> Forall (fun r => intensity r = 2) (ripples self).
Proof.
  induction 1 as [fuel b canvasId options self eff Hnew
                 |fuel self self' ev out _ IH Hstep].
  - apply construct_Live in Hnew. destruct Hnew as [-> _]. constructor.
  - eapply handle_intensity; eassumption.
Qed.

(* ================================================================= *)
(** ** The sample run *)

Lemma gridCount_20_20 : gridCount 20 20 = 1%nat.
Proof.
  unfold gridCount. rewrite (Rceil_unique _ 1) by lra. reflexivity.
Qed.

Lemma gridCoord_20_0 : gridCoord 20 0 = 10.
Proof. unfold gridCoord. simpl. lra. Qed.

Lemma sampleStart_constructed (canvasId : string) :
  exists eff : Effects,
    construct 2 sampleBrowser canvasId noOptions = Ok (Live sampleStart, eff).
Proof.
  unfold construct, init, resize. simpl.
  rewrite initDots_grid by (try lra; rewrite gridCount_20_20; lia).
  rewrite gridCount_20_20. simpl.
  rewrite (canvasLength_exact 20 300 (20 * 1)),
    (canvasLength_exact 20 150 (20 * 1)) by (try lra; lia).
  eexists. reflexivity.
Qed.

Lemma sampleStart_Reachable : Reachable sampleStart.
Proof.
  destruct (sampleStart_constructed "profile-canvas") as [eff H].
  exact (reach_new _ _ _ _ _ _ H).
Qed.

Lemma sampleBusy_Reachable : Reachable sampleBusy.
Proof.
  unfold sampleBusy.
  set (moved := onMouseMove sampleStart (mkMouseEvent 10 10) sampleBox).
  set (pressed := onMouseDown moved (mkMouseEvent 85 10) sampleBox 0 0).
  apply (reach_event 0 pressed _ samplePress []); [|reflexivity].
  apply (reach_event 0 moved _ samplePress []); [|reflexivity].
  apply (reach_event 0 sampleStart _
                     (MouseMove (mkMouseEvent 10 10) sampleBox) []);
    [|reflexivity].
  exact sampleStart_Reachable.
Qed.

Lemma sampleBusy_ripples : ripples sampleBusy = [sampleRipple; sampleRipple].
Proof.
  unfold sampleBusy. rewrite !onMouseDown_ripples. simpl.
  assert (H : Rltb (0 - 0) 3000 = true) by (apply Rltb_true; lra).
  rewrite H. simpl. rewrite H. reflexivity.
Qed.

Lemma sampleBusy_mouse : mouse sampleBusy = mkMouse (10 - 0) (10 - 0) true.
Proof. reflexivity. Qed.

Lemma sampleBusy_dots :
  dots sampleBusy = [mkDot (gridCoord 20 0) (gridCoord 20 0) (gridCoord 20 0)
                           (gridCoord 20 0) (0 * PI * 2)].
Proof. reflexivity. Qed.

(** 75 pixels from the centre of [sampleRipple], 1000 ms after it was
    made, a point is on the ring and takes contribution 1. *)
Lemma specContribution_on_ring (x y now : R) (r : Ripple) :
  intensity r = 2 ->
  now = ripple_time r + 1000 ->
  euclidean x y (ripple_x r) (ripple_y r) = 75 ->
  specContribution x y now r = 1.
Proof.
  intros Hi -> Hd. unfold specContribution. rewrite Hd, Hi.
  replace (ripple_time r + 1000 - ripple_time r) with 1000 by ring.
  destruct (Rlt_dec 1000 2000); [|lra].
  replace (75 - 1000 / 2000 * 150) with 0 by field.
  rewrite Rabs_R0. destruct (Rlt_dec 0 40); lra.
Qed.

Lemma euclidean_sample : euclidean 10 10 (85 - 0) (10 - 0) = 75.
Proof.
  unfold euclidean.
  replace ((10 - (85 - 0)) * (10 - (85 - 0)) + (10 - (10 - 0)) * (10 - (10 - 0)))
    with (75 * 75) by ring.
  apply sqrt_square. lra.
Qed.

Lemma sampleBusy_rippleInfluence :
  getRippleInfluence sampleBusy 10 10 1000 = 2.
Proof.
  rewrite getRippleInfluence_sum, sampleBusy_ripples. simpl.
  rewrite (specContribution_on_ring 10 10 1000 sampleRipple);
    [|reflexivity|simpl; lra|exact euclidean_sample].
  unfold Rmin. destruct (Rle_dec (1 + (1 + 0)) 2); lra.
Qed.

Lemma sampleBusy_mouseInfluence : getMouseInfluence sampleBusy 10 10 = 1.
Proof.
  rewrite getMouseInfluence_spec, sampleBusy_mouse. simpl.
  replace (10 - 0) with 10 by ring. rewrite euclidean_same.
  apply specMouseInfluence_one; lra.
Qed.

(* ================================================================= *)
(** ** The claims about the ripple influence *)

Lemma specContribution_live (x y now : R) (r : Ripple) :
  let age := now - ripple_time r in
  let progress := age / 2000 in
  let currentRadius := progress * 150 in
  let distance := euclidean x y (ripple_x r) (ripple_y r) in
  age < 2000 ->
  (Rabs (distance - currentRadius) < 40 ->
   specContribution x y now r =
   (1 - progress) * intensity r *
   (1 - Rabs (distance - currentRadius) / 40)) /\
  (~ Rabs (distance - currentRadius) < 40 ->
   specContribution x y now r = 0).
Proof.
  intros age progress currentRadius distance Hage.
  unfold specContribution.
  fold age. fold progress. fold currentRadius. fold distance.
  destruct (Rlt_dec age 2000); [|contradiction].
  destruct (Rlt_dec (Rabs (distance - currentRadius)) 40);
    split; intros; try reflexivity; contradiction.
Qed.

(** C2: a ripple made at [t0] adds nothing at any query time
    [t >= t0 + 2000]: the loop body leaves [totalInfluence] as it was,
    and [getRippleInfluence] returns what it returns without that
    ripple in the list. *)
Theorem expired_ripple_contributes_zero :
  forall (r : Ripple) (x y t : R),
    t >= ripple_time r + 2000 ->
    (forall total : R, rippleStep x y t total r = total) /\
    (forall (self : ProfileDots) (before after : list Ripple),
        ripples self = before ++ r :: after ->
        getRippleInfluence self x y t =
        getRippleInfluence (set_ripples self (before ++ after)) x y t).
Proof.
  intros r x y t Ht. split.
  - intros total. rewrite rippleStep_contribution.
    rewrite specContribution_expired by exact Ht. lra.
  - intros self before after Hrs. rewrite !getRippleInfluence_sum.
    simpl. rewrite Hrs, !map_app, !Rsum_app. simpl.
    rewrite specContribution_expired by exact Ht. f_equal. lra.
Qed.

(** C2 at [sampleRipple] (made at time 0), queried at time 2000. *)
Lemma expired_ripple_contributes_zero_witness :
  rippleStep 10 10 2000 0 sampleRipple = 0 /\
  getRippleInfluence (set_ripples sampleStart [sampleRipple]) 10 10 2000 =
  getRippleInfluence (set_ripples sampleStart []) 10 10 2000.
Proof.
  assert (H : 2000 >= ripple_time sampleRipple + 2000) by (simpl; lra).
  destruct (expired_ripple_contributes_zero sampleRipple 10 10 2000 H)
    as [Hstep Hall].
  split.
  - apply Hstep.
  - apply (Hall (set_ripples sampleStart [sampleRipple]) [] []).
    reflexivity.
Defined.

(** C4: in every state the component can reach, whatever the number and
    the ages of its ripples, [getRippleInfluence] returns a value
    between 0 and 2 at every point and time. *)
Theorem getRippleInfluence_range :
  forall self : ProfileDots,
    Reachable self ->
    forall x y t : R, 0 <= getRippleInfluence self x y t <= 2.
Proof.
  intros self Hreach x y t. apply getRippleInfluence_bounds.
  apply Reachable_intensity in Hreach.
  eapply Forall_impl; [|exact Hreach].
  intros r Hr. simpl in Hr. rewrite Hr. lra.
Qed.

(** C4 at [sampleBusy], whose two ripples overlap at (10, 10). *)
Lemma getRippleInfluence_range_witness :
  0 <= getRippleInfluence sampleBusy 10 10 1000 <= 2.
Proof.
  exact (getRippleInfluence_range sampleBusy sampleBusy_Reachable 10 10 1000).
Defined.

(** Outside the reachable states the lower bound needs the intensities
    to be non-negative: a ripple of intensity -1 gives influence -1/2. *)
Remark getRippleInfluence_negative_intensity :
  getRippleInfluence (set_ripples sampleStart [mkRipple 85 10 0 (-1)])
                     10 10 1000 = - (1 / 2).
Proof.
  rewrite getRippleInfluence_sum. simpl.
  assert (Hd : euclidean 10 10 85 10 = 75).
  { unfold euclidean.
    replace ((10 - 85) * (10 - 85) + (10 - 10) * (10 - 10)) with (75 * 75)
      by ring.
    apply sqrt_square. lra. }
  destruct (specContribution_live 10 10 1000 (mkRipple 85 10 0 (-1)))
    as [Hnear _]; [simpl; lra|].
  simpl in Hnear. rewrite Hd in Hnear.
  replace (75 - (1000 - 0) / 2000 * 150) with 0 in Hnear by field.
  rewrite Rabs_R0 in Hnear. rewrite Hnear by lra.
  unfold Rmin. destruct (Rle_dec _ 2); lra.
Qed.



(* ================================================================= *)
(** ** The frame *)

(** C6: in a frame every dot is painted at its original position with
    [totalInfluence = mouseInfluence + rippleInfluence] (no cap on the
    sum), radius [max(0, 1.5 + totalInfluence*3 + sin(time + phase)*0.5)]
    and opacity
    [max(0.3, 0.6 + totalInfluence*0.4 + |sin(time*0.5 + phase)|*0.1)],
    [time] being [this.time] as the frame has just advanced it; the
    opacity is never below 0.3; and in a reachable state a dot is painted
    with total influence 3 (above the ripple cap of 2) and opacity above
    1. *)
Theorem animate_dot_appearance :
  (forall (self : ProfileDots) (currentTime : R) (frameId : nat),
      let T := time self + animationSpeed self in
      let total := fun d : Dot =>
        getMouseInfluence self (originalX d) (originalY d) +
        getRippleInfluence self (originalX d) (originalY d) currentTime in
      snd (animateFrame self currentTime frameId) =
      ClearRect 0 0 (canvas_width self / dpr self)
                (canvas_height self / dpr self)
      :: map (fun d : Dot =>
                FillArc (originalX d) (originalY d)
                  (Rmax 0 (1.5 + total d * 3 + sin (T + phase d) * 0.5))
                  (dotColor self)
                  (Rmax 0.3 (0.6 + total d * 0.4 +
                             Rabs (sin (T * 0.5 + phase d)) * 0.1)))
             (dots self)
      ++ (if removeWaveLine self then []
          else flat_map (drawWave currentTime) (ripples self))) /\
  (forall T total ph : R,
      0.3 <= Rmax 0.3 (0.6 + total * 0.4 + Rabs (sin (T * 0.5 + ph)) * 0.1) /\
      0 <= Rmax 0 (1.5 + total * 3 + sin (T + ph) * 0.5)) /\
  (exists (self : ProfileDots) (currentTime : R) (d : Dot),
      Reachable self /\ In d (dots self) /\
      let T := time self + animationSpeed self in
      let total :=
        getMouseInfluence self (originalX d) (originalY d) +
        getRippleInfluence self (originalX d) (originalY d) currentTime in
      total = 3 /\
      1 < Rmax 0.3 (0.6 + total * 0.4 +
                    Rabs (sin (T * 0.5 + phase d)) * 0.1)).
Proof.
  split; [|split].
  - intros self currentTime frameId T total. simpl.
    rewrite map_map. reflexivity.
  - intros T total ph. split; apply Rmax_l.
  - exists sampleBusy, 1000,
      (mkDot (gridCoord 20 0) (gridCoord 20 0) (gridCoord 20 0)
             (gridCoord 20 0) (0 * PI * 2)).
    split; [exact sampleBusy_Reachable|].
    split; [rewrite sampleBusy_dots; left; reflexivity|].
    cbv zeta. cbn [originalX originalY phase].
    rewrite gridCoord_20_0, sampleBusy_mouseInfluence,
      sampleBusy_rippleInfluence.
    split; [lra|].
    match goal with |- 1 < Rmax 0.3 ?v =>
      pose proof (Rmax_r 0.3 v) as Hmax;
      assert (Hv : 1.8 <= v)
    end.
    { match goal with |- _ <= _ + Rabs ?s * 0.1 =>
        pose proof (Rabs_pos s) end. lra. }
    lra.
Qed.

(* ================================================================= *)
(** ** The constructor *)

(** C7: when the id names no element the constructor returns at once:
    the object stays inert, no listener is registered, nothing is
    painted, no frame is requested and nothing is thrown, whatever the
    fuel; a later call of [animate] on the object returns at its guard
    without any effect. *)
Theorem construct_missing_canvas :
  forall (fuel : nat) (b : Browser) (canvasId : string) (options : Options),
    getElementById b canvasId = None ->
    exists eff : Effects,
      construct fuel b canvasId options = Ok (Inert, eff) /\
      listeners eff = [] /\ painted eff = [] /\ frameRequests eff = 0%nat /\
      (forall (t : R) (id : nat), animate Inert t id = (Inert, noEffects)).
Proof.
  intros fuel b canvasId options Hnone. exists noEffects.
  unfold construct. rewrite Hnone. repeat split; reflexivity.
Qed.

(** C7 in a document without elements, with no fuel at all. *)
Lemma construct_missing_canvas_witness :
  exists eff : Effects,
    construct 0 emptyBrowser "profile-canvas" noOptions = Ok (Inert, eff) /\
    listeners eff = [] /\ painted eff = [] /\ frameRequests eff = 0%nat.
Proof.
  destruct (construct_missing_canvas 0 emptyBrowser "profile-canvas"
                                     noOptions eq_refl)
    as (eff & Hc & Hl & Hp & Hf & _).
  exists eff. auto.
Defined.

(** For contrast: a constructor that finds its canvas and returns has
    registered the five listeners and requested a frame. *)
Lemma construct_Live_effects (fuel : nat) (b : Browser) (canvasId : string)
      (options : Options) (self : ProfileDots) (eff : Effects) :
  construct fuel b canvasId options = Ok (Live self, eff) ->
  listeners eff = initEvents /\ frameRequests eff = 1%nat /\
  exists el : Element, getElementById b canvasId = Some el.
Proof.
  unfold construct. destruct (getElementById b canvasId) as [el|];
    [|discriminate].
  destruct (has2dContext el); [|discriminate].
  unfold init.
  match goal with |- context [resize ?f ?s ?p ?r] =>
    destruct (resize f s p r) as [self1| |]; simpl; try discriminate
  end.
  intros H. injection H as _ <-. simpl. eauto.
Qed.

(* ================================================================= *)
(** ** The handlers *)

(** After the [mousedown] handler every ripple is younger than 3000 ms
    at the handler's second clock reading. *)
Lemma onMouseDown_prunes (self : ProfileDots) (e : MouseEvent) (rect : Rect)
      (pushed now : R) (r : Ripple) :
  In r (ripples (onMouseDown self e rect pushed now)) ->
  now - ripple_time r < 3000.
Proof.
  rewrite onMouseDown_ripples. intros H. apply filter_In in H.
  destruct H as [_ H]. apply Rltb_true. exact H.
Qed.

Lemma samplePressed_ripples :
  ripples (onMouseDown sampleStart (mkMouseEvent 85 10) sampleBox 0 0) =
  [sampleRipple].
Proof.
  rewrite onMouseDown_ripples. simpl.
  assert (H : Rltb (0 - 0) 3000 = true) by (apply Rltb_true; lra).
  rewrite H. reflexivity.
Qed.

Lemma samplePressed_Reachable :
  Reachable (onMouseDown sampleStart (mkMouseEvent 85 10) sampleBox 0 0).
Proof.
  apply (reach_event 0 sampleStart _ samplePress []); [|reflexivity].
  exact sampleStart_Reachable.
Qed.

(** C8 (where the code departs from it): the [touchstart] handler does
    not prune.  In the reachable state with one ripple made at time 0, a
    touch at time 5000 leaves that ripple, then 5000 ms old, in the
    list. *)
Theorem onTouchStart_keeps_stale_ripple :
  let self := onMouseDown sampleStart (mkMouseEvent 85 10) sampleBox 0 0 in
  Reachable self /\
  exists self' : ProfileDots,
    onTouchStart self [mkTouch 5 5] sampleBox 5000 = Ok self' /\
    ripples self' = [sampleRipple; mkRipple (5 - 0) (5 - 0) 5000 2] /\
    In sampleRipple (ripples self') /\
    ~ 5000 - ripple_time sampleRipple < 3000.
Proof.
  cbv zeta. split; [exact samplePressed_Reachable|].
  set (self := onMouseDown sampleStart (mkMouseEvent 85 10) sampleBox 0 0).
  set (touched := ripples self ++ [mkRipple (5 - 0) (5 - 0) 5000 2]).
  exists (set_ripples self touched).
  split; [reflexivity|].
  change (ripples (set_ripples self touched)) with touched.
  assert (Hr : touched = [sampleRipple; mkRipple (5 - 0) (5 - 0) 5000 2]).
  { unfold touched, self. rewrite samplePressed_ripples. reflexivity. }
  rewrite Hr. split; [reflexivity|]. split; [left; reflexivity|].
  simpl. lra.
Qed.

(** C9: on a touch-start with one touch point the handler returns,
    having appended one ripple of intensity 2, stamped with the current
    time, at the touch position relative to the canvas box; nothing else
    in the object changes, the pointer state and its [isDown]
    included. *)
Theorem onTouchStart_single :
  forall (self : ProfileDots) (touch : Touch) (rect : Rect) (now : R),
    let ripple := mkRipple (touch_clientX touch - rect_left rect)
                           (touch_clientY touch - rect_top rect) now 2 in
    exists self' : ProfileDots,
      onTouchStart self [touch] rect now = Ok self' /\
      ripples self' = ripples self ++ [ripple] /\
      length (ripples self') = S (length (ripples self)) /\
      intensity ripple = 2 /\ ripple_time ripple = now /\
      mouse self' = mouse self /\
      isDown (mouse self') = isDown (mouse self) /\
      self' = set_ripples self (ripples self').
Proof.
  intros self touch rect now ripple.
  exists (set_ripples self (ripples self ++ [ripple])).
  repeat split. simpl. rewrite length_app. simpl. lia.
Qed.

Lemma drawWave_expired (t : R) (r : Ripple) :
  t - ripple_time r >= 2000 -> drawWave t r = [].
Proof.
  intros H. unfold drawWave.
  destruct (Rlt_dec (t - ripple_time r) 2000); [lra|reflexivity].
Qed.

(** No handler but [mousedown] takes a ripple out of the list. *)
Lemma handle_keeps_ripples (fuel : nat) (self self' : ProfileDots)
      (ev : Event) (out : list Paint) :
  handle fuel self ev = Ok (self', out) ->
  (forall e rect pushed now, ev <> MouseDown e rect pushed now) ->
  exists added : list Ripple, ripples self' = ripples self ++ added.
Proof.
  intros Hstep Hev.
  destruct ev as [parent random|e rect|e rect pushed now|
                  |touches rect now|now id]; simpl in Hstep.
  - destruct (resize fuel self parent random) as [s| |] eqn:Hres;
      simpl in Hstep; try discriminate.
    injection Hstep as <- _. apply resize_ripples in Hres.
    destruct Hres as [-> _]. exists []. rewrite app_nil_r. reflexivity.
  - injection Hstep as <- _. exists []. rewrite app_nil_r. reflexivity.
  - exfalso. exact (Hev e rect pushed now eq_refl).
  - injection Hstep as <- _. exists []. rewrite app_nil_r. reflexivity.
  - destruct (onTouchStart self touches rect now) as [s| |] eqn:Ht;
      simpl in Hstep; try discriminate.
    injection Hstep as <- _. apply onTouchStart_Ok in Ht.
    destruct Ht as (touch & rest & _ & ->). simpl. eauto.
  - injection Hstep as <- _. exists []. rewrite app_nil_r. reflexivity.
Qed.

(** C10: a frame leaves the ripple list as it is and leaves every dot
    its [originalX], [originalY] and [phase]; a ripple of age 2000 or
    more is skipped, both when the outlines are drawn and in the
    influence sum; every handler other than [mousedown] only keeps or
    extends the ripple list; and the [mousedown] filter does remove: in
    a reachable state, a press 5000 ms after the first drops the first
    ripple.  (The influence functions return a number and nothing else,
    so they cannot change the list.) *)
Theorem ripples_removed_only_by_mousedown :
  (forall (self : ProfileDots) (t : R) (id : nat),
      let self' := fst (animateFrame self t id) in
      ripples self' = ripples self /\
      map originalX (dots self') = map originalX (dots self) /\
      map originalY (dots self') = map originalY (dots self) /\
      map phase (dots self') = map phase (dots self)) /\
  (forall (t : R) (r : Ripple),
      t - ripple_time r >= 2000 ->
      drawWave t r = [] /\
      forall x y total : R, rippleStep x y t total r = total) /\
  (forall (fuel : nat) (self self' : ProfileDots) (ev : Event)
          (out : list Paint),
      handle fuel self ev = Ok (self', out) ->
      (forall e rect pushed now, ev <> MouseDown e rect pushed now) ->
      exists added : list Ripple, ripples self' = ripples self ++ added) /\
  (exists (self : ProfileDots) (e : MouseEvent) (rect : Rect)
          (pushed now : R) (r : Ripple),
      Reachable self /\ In r (ripples self) /\
      ~ In r (ripples (onMouseDown self e rect pushed now))).
Proof.
  split; [|split; [|split]].
  - intros self t id self'. unfold self'.
    rewrite animateFrame_ripples, animateFrame_dots, !map_map.
    repeat split.
  - intros t r Hage. split; [apply drawWave_expired; exact Hage|].
    intros x y total. rewrite rippleStep_contribution.
    rewrite specContribution_expired by lra. lra.
  - exact handle_keeps_ripples.
  - exists (onMouseDown sampleStart (mkMouseEvent 85 10) sampleBox 0 0),
      (mkMouseEvent 85 10), sampleBox, 5000, 5000, sampleRipple.
    split; [exact samplePressed_Reachable|].
    split; [rewrite samplePressed_ripples; left; reflexivity|].
    intros Hin. apply onMouseDown_prunes in Hin. simpl in Hin. lra.
Qed.

(* ================================================================= *)
(** ** The scenarios on binary64 *)

(** On doubles the loops of [initDots] give the same 25 positions on a
    100x100 surface at spacing 20, and 25 dots on a 105x100 surface. *)
Example binary64_grid_scenario :
  option_map (map Binary64.position)
             (Binary64.initDots (fun _ => 0%float) 20 6 100 100) =
  Some Binary64.scenarioGrid.
Proof. vm_compute. reflexivity. Qed.

Example binary64_grid_105 :
  option_map (@length Binary64.Dot)
             (Binary64.initDots (fun _ => 0%float) 20 6 105 100) =
  Some 25%nat.
Proof. vm_compute. reflexivity. Qed.

(** At a spacing that is not a double the sums of [initDots] are
    rounded: at spacing 10.1 a surface 136.35 wide gets a 14th column at
    x = 136.34999999999997, where [136.35/10.1 - 1/2] is 13. *)
Example binary64_grid_rounding :
  option_map (fun ds => (length ds,
                         last (map Binary64.originalX ds) 0%float))
             (Binary64.initDots (fun _ => 0%float) 0x1.4333333333333p+3 15
                                0x1.10b3333333333p+7 10) =
  Some (14%nat, 0x1.10b3333333332p+7%float).
Proof. vm_compute. reflexivity. Qed.

(** The ripple scenario: intensity 2, age 1000, distance 75. *)
Example binary64_ring_scenario :
  Binary64.getRippleInfluence [Binary64.mkRipple 85 10 0 2] 10 10 1000 =
  1%float.
Proof. vm_compute. reflexivity. Qed.

(** Two overlapping ripples reach the cap, an expired one gives 0. *)
Example binary64_ripple_cap :
  Binary64.getRippleInfluence
    [Binary64.mkRipple 85 10 0 2; Binary64.mkRipple 85 10 0 2;
     Binary64.mkRipple 85 10 0 2] 10 10 1000 = 2%float /\
  Binary64.getRippleInfluence [Binary64.mkRipple 85 10 0 2] 10 10 2000 =
  0%float.
Proof. split; vm_compute; reflexivity. Qed.

(** The mouse influence at the pointer, half way and at distance 100. *)
Example binary64_mouse_scenario :
  Binary64.getMouseInfluence (Binary64.mkMouse 10 10 false) 10 10 = 1%float /\
  Binary64.getMouseInfluence (Binary64.mkMouse 10 10 false) 60 10 =
  0.5%float /\
  Binary64.getMouseInfluence (Binary64.mkMouse 10 10 false) 110 10 = 0%float.
Proof. repeat split; vm_compute; reflexivity. Qed.

(* ################################################################# *)
(** * Part III: further properties of the code *)

(* ================================================================= *)
(** ** The loops of [initDots] for any spacing *)

Section GridLoops.

Variable random : nat -> R.
Variable spacing : R.

(** What holds of the dot list and the number of draws before the inner
    loop, and is kept by one push, holds after it. *)
Lemma innerLoop_inv (I : list Dot -> nat -> Prop) (Q : R -> Prop)
      (height x : R) :
  (forall y, Q y -> y < height -> Q (y + spacing)) ->
  (forall y dots k, Q y -> y < height -> I dots k ->
                    I (dots ++ [newDot random x y k]) (S k)) ->
  forall (fuel : nat) (y : R) (dots : list Dot) (k : nat)
         (dots' : list Dot) (k' : nat),
    Q y -> I dots k ->
    innerLoop random spacing fuel height x y dots k = Some (dots', k') ->
    I dots' k'.
Proof.
  intros HQ HI. induction fuel as [|fuel IH]; intros y dots k dots' k' Hy Hd;
    simpl; [discriminate|].
  destruct (Rlt_dec y height) as [Hlt|_].
  - apply IH; [apply HQ|apply HI]; assumption.
  - intros H. injection H as <- <-. exact Hd.
Qed.

Lemma outerLoop_inv (I : list Dot -> nat -> Prop) (Qx Qy : R -> Prop)
      (width height : R) :
  (forall x, Qx x -> x < width -> Qx (x + spacing)) ->
  (forall y, Qy y -> y < height -> Qy (y + spacing)) ->
  Qy (spacing / 2) ->
  (forall x y dots k, Qx x -> x < width -> Qy y -> y < height -> I dots k ->
                      I (dots ++ [newDot random x y k]) (S k)) ->
  forall (fuel fuelY : nat) (x : R) (dots : list Dot) (k : nat)
         (dots' : list Dot) (k' : nat),
    Qx x -> I dots k ->
    outerLoop random spacing fuel fuelY width height x dots k
    = Some (dots', k') ->
    I dots' k'.
Proof.
  intros HQx HQy Hy0 HI.
  induction fuel as [|fuel IH]; intros fuelY x dots k dots' k' Hx Hd;
    simpl; [discriminate|].
  destruct (Rlt_dec x width) as [Hlt|_].
  - destruct (innerLoop random spacing fuelY height x (spacing / 2) dots k)
      as [[dots1 k1]|] eqn:Hin; [|discriminate].
    apply IH; [apply HQx; assumption|].
    apply (innerLoop_inv I Qy height x HQy) in Hin; try assumption.
    intros y ds n Hy Hylt Hds. apply HI; assumption.
  - intros H. injection H as <- <-. exact Hd.
Qed.

Lemma initDots_inv (I : list Dot -> nat -> Prop) (Qx Qy : R -> Prop)
      (width height : R) :
  (forall x, Qx x -> x < width -> Qx (x + spacing)) ->
  (forall y, Qy y -> y < height -> Qy (y + spacing)) ->
  Qx (spacing / 2) -> Qy (spacing / 2) ->
  (forall x y dots k, Qx x -> x < width -> Qy y -> y < height -> I dots k ->
                      I (dots ++ [newDot random x y k]) (S k)) ->
  I [] 0%nat ->
  forall (fuel : nat) (dots : list Dot),
    initDots random spacing fuel width height = Some dots ->
    exists k : nat, I dots k.
Proof.
  intros HQx HQy Hx0 Hy0 HI H0 fuel dots. unfold initDots.
  destruct (outerLoop random spacing fuel fuel width height (spacing / 2)
                      [] 0) as [[ds k]|] eqn:Hout; [|discriminate].
  intros H. injection H as <-. exists k.
  exact (outerLoop_inv I Qx Qy width height HQx HQy Hy0 HI
                       fuel fuel (spacing / 2) [] 0%nat ds k Hx0 H0 Hout).
Qed.

(** Every dot [initDots] returns is left of [width] and above [height],
    and sits where it was made. *)
Lemma initDots_upper (width height : R) (fuel : nat) (dots : list Dot) :
  initDots random spacing fuel width height = Some dots ->
  Forall (fun d => originalX d < width /\ originalY d < height /\
                   dot_x d = originalX d /\ dot_y d = originalY d) dots.
Proof.
  intros H.
  destruct (initDots_inv
              (fun ds _ =>
                 Forall (fun d => originalX d < width /\
                                  originalY d < height /\
                                  dot_x d = originalX d /\
                                  dot_y d = originalY d) ds)
              (fun _ => True) (fun _ => True) width height)
    with (fuel := fuel) (dots := dots) as [_ Hall]; auto.
  intros x y ds k _ Hx _ Hy Hds. apply Forall_app. split; [exact Hds|].
  constructor; [|constructor]. simpl. auto.
Qed.

(** With a positive spacing every coordinate is positive. *)
Lemma initDots_lower (width height : R) (fuel : nat) (dots : list Dot) :
  0 < spacing ->
  initDots random spacing fuel width height = Some dots ->
  Forall (fun d => 0 < originalX d /\ 0 < originalY d) dots.
Proof.
  intros Hs H.
  destruct (initDots_inv
              (fun ds _ => Forall (fun d => 0 < originalX d /\
                                            0 < originalY d) ds)
              (fun x => 0 < x) (fun y => 0 < y) width height)
    with (fuel := fuel) (dots := dots) as [_ Hall]; auto;
    try (intros; lra).
  intros x y ds k Hx _ Hy _ Hds. apply Forall_app. split; [exact Hds|].
  constructor; [|constructor]. simpl. auto.
Qed.

(** The [n]-th dot pushed takes the [n]-th draw of [Math.random()]. *)
Lemma initDots_draws (width height : R) (fuel : nat) (dots : list Dot) :
  initDots random spacing fuel width height = Some dots ->
  forall (n : nat) (d : Dot),
    nth_error dots n = Some d -> phase d = random n * PI * 2.
Proof.
  intros H.
  destruct (initDots_inv
              (fun ds k =>
                 k = length ds /\
                 forall n d, nth_error ds n = Some d ->
                             phase d = random n * PI * 2)
              (fun _ => True) (fun _ => True) width height)
    with (fuel := fuel) (dots := dots) as [k [_ Hall]]; auto.
  - intros x y ds k _ _ _ _ [Hk Hds]. split.
    + rewrite length_app. simpl. lia.
    + intros n d Hn.
      destruct (Nat.lt_ge_cases n (length ds)) as [Hlt|Hge].
      * rewrite nth_error_app1 in Hn by exact Hlt. apply Hds. exact Hn.
      * rewrite nth_error_app2 in Hn by exact Hge.
        destruct (n - length ds)%nat as [|m] eqn:Hm; simpl in Hn.
        -- injection Hn as <-. simpl. f_equal. f_equal. f_equal. lia.
        -- destruct m; discriminate.
  - split; [reflexivity|]. intros [|n] d Hn; discriminate.
Qed.

(** With a spacing that is not positive the outer loop never ends once
    it is entered. *)
Lemma outerLoop_diverges (width height : R) :
  spacing <= 0 ->
  forall (fuel fuelY : nat) (x : R) (dots : list Dot) (k : nat),
    x < width ->
    outerLoop random spacing fuel fuelY width height x dots k = None.
Proof.
  intros Hs. induction fuel as [|fuel IH]; intros fuelY x dots k Hx; simpl;
    [reflexivity|].
  destruct (Rlt_dec x width) as [_|Hn]; [|contradiction].
  destruct (innerLoop random spacing fuelY height x (spacing / 2) dots k)
    as [[dots1 k1]|]; [|reflexivity].
  apply IH. lra.
Qed.

Lemma initDots_diverges (width height : R) (fuel : nat) :
  spacing <= 0 -> spacing / 2 < width ->
  initDots random spacing fuel width height = None.
Proof.
  intros Hs Hw. unfold initDots.
  rewrite (outerLoop_diverges width height Hs) by exact Hw. reflexivity.
Qed.

End GridLoops.

(* ================================================================= *)
(** ** What the constructor builds *)

Lemma orNumber_nonzero (v : option R) (d : R) : d <> 0 -> orNumber v d <> 0.
Proof.
  intros Hd. unfold orNumber. destruct v as [n|]; [|exact Hd].
  destruct (Req_dec_T n 0); assumption.
Qed.

Lemma orString_nonempty (v : option string) (d : string) :
  d <> EmptyString -> orString v d <> EmptyString.
Proof.
  intros Hd. unfold orString. destruct v as [[|c s]|]; try exact Hd.
  discriminate.
Qed.

(** A constructor that returns a live object found a usable canvas with
    a parent, ran [initDots] to its end, and painted one frame. *)
Lemma construct_Live_inv (fuel : nat) (b : Browser) (canvasId : string)
      (options : Options) (self : ProfileDots) (eff : Effects) :
  construct fuel b canvasId options = Ok (Live self, eff) ->
  exists (el : Element) (rect : Rect) (ds : list Dot),
    getElementById b canvasId = Some el /\
    has2dContext el = true /\
    parentBox el = Some rect /\
    initDots (mathRandom b) (gridSpacing (fieldsAtInit b options)) fuel
             (rect_width rect) (rect_height rect) = Some ds /\
    let sized :=
      set_dots
        (set_canvas (fieldsAtInit b options)
           (canvasLength (rect_width rect * dpr (fieldsAtInit b options)) 300)
           (canvasLength (rect_height rect * dpr (fieldsAtInit b options)) 150)
           (dpr (fieldsAtInit b options))) ds in
    self = fst (animateFrame sized (dateNow b) (nextFrameId b)) /\
    eff = mkEffects initEvents
                    (snd (animateFrame sized (dateNow b) (nextFrameId b))) 1.
Proof.
  unfold construct. destruct (getElementById b canvasId) as [el|];
    [|discriminate].
  destruct (has2dContext el) eqn:Hctx; [|discriminate].
  change (mkProfileDots 0 0 1
            (orString (opt_backgroundColor options) "transparent")
            (orString (opt_dotColor options) "#FFD700")
            (orNumber (opt_gridSpacing options) 20)
            (orNumber (opt_animationSpeed options) 0.05)
            match opt_removeWaveLine options with
            | Some v => v
            | None => false
            end 0 (mkMouse 0 0 false) [] []
            (orNumber (devicePixelRatio b) 1) None)
    with (fieldsAtInit b options).
  unfold init.
  destruct (resize fuel (fieldsAtInit b options) (parentBox el)
                   (mathRandom b)) as [self1| |] eqn:Hres;
    simpl; try discriminate.
  apply resize_Ok in Hres. destruct Hres as (rect & ds & Hp & Hd & ->).
  intros H. injection H as <- <-.
  exists el, rect, ds. repeat split; try assumption; reflexivity.
Qed.

(* ================================================================= *)
(** ** Invariants of the reachable states *)

Lemma handle_config (fuel : nat) (self self' : ProfileDots) (ev : Event)
      (out : list Paint) :
  handle fuel self ev = Ok (self', out) -> config self' = config self.
Proof.
  intros Hstep.
  destruct ev as [parent random|e rect|e rect pushed now|
                  |touches rect now|now id]; simpl in Hstep.
  - destruct (resize fuel self parent random) as [s| |] eqn:Hres;
      simpl in Hstep; try discriminate.
    injection Hstep as <- _. apply resize_Ok in Hres.
    destruct Hres as (rect & ds & _ & _ & ->). reflexivity.
  - injection Hstep as <- _. reflexivity.
  - injection Hstep as <- _. reflexivity.
  - injection Hstep as <- _. reflexivity.
  - destruct (onTouchStart self touches rect now) as [s| |] eqn:Ht;
      simpl in Hstep; try discriminate.
    injection Hstep as <- _. apply onTouchStart_Ok in Ht.
    destruct Ht as (touch & rest & _ & ->). reflexivity.
  - injection Hstep as <- _. reflexivity.
Qed.

Lemma config_fields (s1 s2 : ProfileDots) :
  config s1 = config s2 ->
  backgroundColor s1 = backgroundColor s2 /\ dotColor s1 = dotColor s2 /\
  gridSpacing s1 = gridSpacing s2 /\ animationSpeed s1 = animationSpeed s2 /\
  removeWaveLine s1 = removeWaveLine s2 /\ dpr s1 = dpr s2.
Proof.
  unfold config. intros H. injection H as -> -> -> -> -> ->.
  repeat split.
Qed.

Lemma construct_config (fuel : nat) (b : Browser) (canvasId : string)
      (options : Options) (self : ProfileDots) (eff : Effects) :
  construct fuel b canvasId options = Ok (Live self, eff) ->
  config self = config (fieldsAtInit b options).
Proof.
  intros H. apply construct_Live_inv in H.
  destruct H as (el & rect & ds & _ & _ & _ & _ & -> & _). reflexivity.
Qed.

Lemma resize_dots (fuel : nat) (self self' : ProfileDots)
      (parent : option Rect) (random : nat -> R) :
  resize fuel self parent random = Ok self' ->
  exists rect : Rect,
    parent = Some rect /\ sizedFrom self' rect /\
    Forall (dotInBox rect) (dots self') /\
    (0 < gridSpacing self ->
     Forall (fun d => 0 < originalX d /\ 0 < originalY d) (dots self')).
Proof.
  intros Hres. apply resize_Ok in Hres.
  destruct Hres as (rect & ds & Hp & Hinit & ->).
  exists rect. split; [exact Hp|]. split; [split; reflexivity|]. split.
  - exact (initDots_upper _ _ _ _ _ _ Hinit).
  - intros Hs. exact (initDots_lower _ _ _ _ _ _ Hs Hinit).
Qed.

Lemma animateFrame_dots_kept (self : ProfileDots) (t : R) (id : nat) :
  Forall (fun d => dot_x d = originalX d /\ dot_y d = originalY d)
         (dots self) ->
  dots (fst (animateFrame self t id)) = dots self.
Proof.
  intros Hall. rewrite animateFrame_dots.
  induction Hall as [|d ds [Hx Hy] _ IH]; simpl; [reflexivity|].
  rewrite IH. f_equal. destruct d as [x y ox oy ph]. simpl in *.
  subst. reflexivity.
Qed.

Lemma handle_dots (fuel : nat) (self self' : ProfileDots) (ev : Event)
      (out : list Paint) :
  handle fuel self ev = Ok (self', out) ->
  dotsInvariant self -> dotsInvariant self'.
Proof.
  intros Hstep Hinv.
  destruct ev as [parent random|e rect|e rect pushed now|
                  |touches rect now|now id]; cbn [handle] in Hstep.
  - destruct (resize fuel self parent random) as [s| |] eqn:Hres;
      simpl in Hstep; try discriminate.
    injection Hstep as <- _.
    destruct (resize_dots _ _ _ _ _ Hres) as (rect & _ & Hsz & Hin & Hpos).
    apply resize_Ok in Hres. destruct Hres as (rect' & ds & _ & _ & Hs).
    exists rect. split; [exact Hsz|]. split; [exact Hin|].
    intros Hgt. apply Hpos. rewrite Hs in Hgt. exact Hgt.
  - injection Hstep as <- _. exact Hinv.
  - injection Hstep as <- _. exact Hinv.
  - injection Hstep as <- _. exact Hinv.
  - destruct (onTouchStart self touches rect now) as [s| |] eqn:Ht;
      simpl in Hstep; try discriminate.
    injection Hstep as <- _. apply onTouchStart_Ok in Ht.
    destruct Ht as (touch & rest & _ & ->). exact Hinv.
  - injection Hstep as <- _. destruct Hinv as (rect & Hsz & H1 & H2).
    exists rect. split; [exact Hsz|].
    change (Forall (dotInBox rect) (dots (fst (animateFrame self now id)))
            /\ (0 < gridSpacing self ->
                Forall (fun d => 0 < originalX d /\ 0 < originalY d)
                       (dots (fst (animateFrame self now id))))).
    assert (Hkept : dots (fst (animateFrame self now id)) = dots self).
    { apply animateFrame_dots_kept. eapply Forall_impl; [|exact H1].
      intros d (_ & _ & Hx & Hy). auto. }
    rewrite Hkept. split; [exact H1|exact H2].
Qed.

Lemma Reachable_invariant (self : ProfileDots) :
  Reachable self ->
  dpr self <> 0 /\ gridSpacing self <> 0 /\ animationSpeed self <> 0 /\
  dotColor self <> EmptyString /\ dotsInvariant self.
Proof.
  induction 1 as [fuel b canvasId options self eff Hnew
                 |fuel self self' ev out _ IH Hstep].
  - pose proof (construct_config _ _ _ _ _ _ Hnew) as Hcfg.
    apply config_fields in Hcfg.
    destruct Hcfg as (_ & Hcol & Hsp & Han & _ & Hdpr).
    split; [rewrite Hdpr; apply orNumber_nonzero; lra|].
    split; [rewrite Hsp; apply orNumber_nonzero; lra|].
    split; [rewrite Han; apply orNumber_nonzero; lra|].
    split; [rewrite Hcol; apply orString_nonempty; discriminate|].
    apply construct_Live_inv in Hnew.
    destruct Hnew as (el & rect & ds & _ & _ & _ & Hinit & Hself & _).
    set (sized := set_dots _ ds) in Hself.
    assert (Hres : resize fuel (fieldsAtInit b options) (Some rect)
                          (mathRandom b) = Ok sized).
    { unfold resize. simpl. simpl in Hinit. rewrite Hinit. reflexivity. }
    destruct (resize_dots _ _ _ _ _ Hres) as (rect' & _ & Hsz & Hin & Hpos).
    assert (Hstep : handle fuel sized (Frame (dateNow b) (nextFrameId b))
                    = Ok (self, snd (animateFrame sized (dateNow b)
                                                  (nextFrameId b)))).
    { cbn [handle]. rewrite Hself, <- surjective_pairing. reflexivity. }
    apply (handle_dots _ _ _ _ _ Hstep).
    exists rect'. split; [exact Hsz|]. split; [exact Hin|exact Hpos].
  - destruct IH as (Hd & Hs & Ha & Hc & Hdots).
    pose proof (handle_config _ _ _ _ _ Hstep) as Hcfg.
    apply config_fields in Hcfg.
    destruct Hcfg as (_ & Hcol & Hsp & Han & _ & Hdpr).
    split; [rewrite Hdpr; exact Hd|].
    split; [rewrite Hsp; exact Hs|].
    split; [rewrite Han; exact Ha|].
    split; [rewrite Hcol; exact Hc|].
    exact (handle_dots _ _ _ _ _ Hstep Hdots).
Qed.

(** X1: in every reachable state the [||] defaults of the constructor
    have done their work: [gridSpacing], [animationSpeed] and [dpr] are
    not 0 (an option of 0 was replaced by 20, 0.05 and 1) and [dotColor]
    is not the empty string. *)
Theorem Reachable_defaults :
  forall self : ProfileDots,
    Reachable self ->
    gridSpacing self <> 0 /\ animationSpeed self <> 0 /\ dpr self <> 0 /\
    dotColor self <> EmptyString.
Proof.
  intros self H. apply Reachable_invariant in H.
  destruct H as (Hd & Hs & Ha & Hc & _). auto.
Qed.

Lemma Reachable_defaults_witness :
  gridSpacing sampleBusy <> 0 /\ animationSpeed sampleBusy <> 0 /\
  dpr sampleBusy <> 0 /\ dotColor sampleBusy <> EmptyString.
Proof.
  exact (Reachable_defaults sampleBusy sampleBusy_Reachable).
Defined.



(** X3: in a reachable state no handler but the resize handler changes
    the dot list; a frame in particular writes back to every dot the
    coordinates it already has. *)
Theorem dots_changed_only_by_resize :
  forall (fuel : nat) (self self' : ProfileDots) (ev : Event)
         (out : list Paint),
    Reachable self ->
    handle fuel self ev = Ok (self', out) ->
    (forall parent random, ev <> WindowResize parent random) ->
    dots self' = dots self.
Proof.
  intros fuel self self' ev out Hreach Hstep Hev.
  destruct ev as [parent random|e rect|e rect pushed now|
                  |touches rect now|now id]; cbn [handle] in Hstep.
  - exfalso. exact (Hev parent random eq_refl).
  - injection Hstep as <- _. reflexivity.
  - injection Hstep as <- _. reflexivity.
  - injection Hstep as <- _. reflexivity.
  - destruct (onTouchStart self touches rect now) as [s| |] eqn:Ht;
      simpl in Hstep; try discriminate.
    injection Hstep as <- _. apply onTouchStart_Ok in Ht.
    destruct Ht as (touch & rest & _ & ->). reflexivity.
  - injection Hstep as <- _.
    change (dots (fst (animateFrame self now id)) = dots self).
    apply animateFrame_dots_kept. apply Reachable_invariant in Hreach.
    destruct Hreach as (_ & _ & _ & _ & rect & _ & Hin & _).
    eapply Forall_impl; [|exact Hin]. intros d (_ & _ & Hx & Hy). auto.
Qed.

Lemma dots_changed_only_by_resize_witness :
  dots (fst (animateFrame sampleBusy 1000 2)) = dots sampleBusy.
Proof.
  apply (dots_changed_only_by_resize 0 sampleBusy _ (Frame 1000 2)
           (snd (animateFrame sampleBusy 1000 2)) sampleBusy_Reachable).
  - cbn [handle]. rewrite <- surjective_pairing. reflexivity.
  - intros parent random. discriminate.
Defined.

(** X4: a resize regenerates the grid from the parent's box alone: what
    an earlier resize left (canvas size and dots) has no influence on
    the result of the next one. *)
Theorem resize_forgets_previous :
  forall (fuel fuel' : nat) (self resized : ProfileDots)
         (parent parent' : option Rect) (random random' : nat -> R),
    resize fuel self parent random = Ok resized ->
    resize fuel' resized parent' random' = resize fuel' self parent' random' /\
    ripples resized = ripples self /\ mouse resized = mouse self /\
    time resized = time self /\ config resized = config self.
Proof.
  intros fuel fuel' self resized parent parent' random random' H.
  apply resize_Ok in H. destruct H as (rect & ds & _ & _ & ->).
  split; [|repeat split].
  unfold resize. destruct parent' as [rect'|]; [|reflexivity].
  simpl.
  destruct (initDots random' (gridSpacing self) fuel' (rect_width rect')
                     (rect_height rect')); reflexivity.
Qed.

Lemma resize_forgets_previous_witness :
  exists resized : ProfileDots,
    resize 2 sampleStart (Some sampleBox) (fun _ => 0) = Ok resized /\
    resize 2 resized (Some sampleBox) (fun _ => 0) =
    resize 2 sampleStart (Some sampleBox) (fun _ => 0).
Proof.
  assert (H : exists resized,
             resize 2 sampleStart (Some sampleBox) (fun _ => 0) = Ok resized).
  { unfold resize. simpl.
    rewrite initDots_grid by (try lra; rewrite gridCount_20_20; lia).
    eexists. reflexivity. }
  destruct H as [resized H]. exists resized. split; [exact H|].
  exact (proj1 (resize_forgets_previous 2 2 sampleStart resized
                  (Some sampleBox) (Some sampleBox) (fun _ => 0) (fun _ => 0)
                  H)).
Defined.





(** X7: whenever [initDots] returns, the [n]-th dot of the list carries
    the phase made from the [n]-th draw of [Math.random()], so with
    draws in [[0, 1)] every phase lies in [[0, 2*PI)]. *)
Theorem initDots_phases :
  forall (random : nat -> R) (S W H : R) (fuel : nat) (dots : list Dot),
    initDots random S fuel W H = Some dots ->
    (forall (n : nat) (d : Dot),
        nth_error dots n = Some d -> phase d = random n * PI * 2) /\
    ((forall k : nat, 0 <= random k < 1) ->
     forall d : Dot, In d dots -> 0 <= phase d < 2 * PI).
Proof.
  intros random S W H fuel dots Hinit.
  pose proof (initDots_draws random S W H fuel dots Hinit) as Hdraw.
  split; [exact Hdraw|].
  intros Hrand d Hd. apply In_nth_error in Hd. destruct Hd as [n Hn].
  rewrite (Hdraw n d Hn). pose proof (Hrand n) as [Hlo Hhi].
  pose proof PI_RGT_0 as Hpi. nra.
Qed.

Lemma initDots_phases_witness :
  exists dots : list Dot,
    initDots (fun _ => 1 / 2) 20 2 20 20 = Some dots /\
    forall d : Dot, In d dots -> 0 <= phase d < 2 * PI.
Proof.
  assert (H : initDots (fun _ => 1 / 2) 20 2 20 20 =
              Some (gridDots (fun _ => 1 / 2) 20 (gridCount 20 20)
                             (gridCount 20 20)))
    by (apply initDots_grid; try lra; rewrite gridCount_20_20; lia).
  eexists. split; [exact H|].
  apply (proj2 (initDots_phases _ _ _ _ _ _ H)).
  intros k. lra.
Defined.

(* ================================================================= *)
(** ** The pointer handlers *)


Lemma onMouseDown_kept (self : ProfileDots) (e : MouseEvent) (rect : Rect)
      (pushed now : R) :
  now - pushed < 3000 ->
  ripples (onMouseDown self e rect pushed now) =
  filter (fun r => Rltb (now - ripple_time r) 3000) (ripples self) ++
  [mkRipple (clientX e - rect_left rect) (clientY e - rect_top rect)
            pushed 2].
Proof.
  intros Hclose. rewrite onMouseDown_ripples, filter_app. simpl.
  assert (Hb : Rltb (now - pushed) 3000 = true)
    by (apply Rltb_true; exact Hclose).
  rewrite Hb. reflexivity.
Qed.

(** X9: when the two clock readings of the [mousedown] handler are less
    than 3000 ms apart, the handler leaves the ripples that are younger
    than 3000 ms, in their order, followed by the new ripple; it sets
    [isDown] and leaves the pointer position. *)
Theorem onMouseDown_result :
  forall (self : ProfileDots) (e : MouseEvent) (rect : Rect) (pushed now : R),
    now - pushed < 3000 ->
    let pressed := onMouseDown self e rect pushed now in
    ripples pressed =
    filter (fun r => Rltb (now - ripple_time r) 3000) (ripples self) ++
    [mkRipple (clientX e - rect_left rect) (clientY e - rect_top rect)
              pushed 2] /\
    (length (ripples pressed) <= S (length (ripples self)))%nat /\
    mouse pressed =
    mkMouse (mouse_x (mouse self)) (mouse_y (mouse self)) true.
Proof.
  intros self e rect pushed now Hclose pressed.
  pose proof (onMouseDown_kept self e rect pushed now Hclose) as Hr.
  fold pressed in Hr.
  split; [exact Hr|]. split; [|reflexivity].
  rewrite Hr, length_app. simpl.
  pose proof (filter_length_le (fun r => Rltb (now - ripple_time r) 3000)
                               (ripples self)).
  lia.
Qed.

Lemma onMouseDown_result_witness :
  ripples (onMouseDown sampleStart (mkMouseEvent 85 10) sampleBox 0 0) =
  filter (fun r => Rltb (0 - ripple_time r) 3000) (ripples sampleStart) ++
  [mkRipple (85 - 0) (10 - 0) 0 2].
Proof.
  assert (H : 0 - 0 < 3000) by lra.
  exact (proj1 (onMouseDown_result sampleStart (mkMouseEvent 85 10)
                                   sampleBox 0 0 H)).
Defined.

Lemma specContribution_at_birth (x y now : R) (r : Ripple) :
  x = ripple_x r -> y = ripple_y r -> now = ripple_time r ->
  specContribution x y now r = intensity r.
Proof.
  intros -> -> ->. unfold specContribution. rewrite euclidean_same.
  replace (ripple_time r - ripple_time r) with 0 by ring.
  destruct (Rlt_dec 0 2000); [|lra].
  replace (0 - 0 / 2000 * 150) with 0 by field.
  rewrite Rabs_R0. destruct (Rlt_dec 0 40); [|lra]. field.
Qed.

Lemma Rsum_contributions_nonneg (x y now : R) (rs : list Ripple) :
  Forall (fun r => intensity r = 2) rs ->
  0 <= Rsum (map (specContribution x y now) rs).
Proof.
  intros Hall. apply Rsum_nonneg. apply Forall_map.
  eapply Forall_impl; [|exact Hall].
  intros r Hr. apply specContribution_nonneg. simpl in Hr. lra.
Qed.

(** X10: in a reachable state a press or a touch puts the ripple
    influence at the pressed point, at the time of the press, at its cap
    of 2: the new ripple alone contributes its full intensity there. *)
Theorem fresh_ripple_full_influence :
  forall self : ProfileDots,
    Reachable self ->
    (forall (e : MouseEvent) (rect : Rect) (pushed now : R),
        now - pushed < 3000 ->
        getRippleInfluence (onMouseDown self e rect pushed now)
                           (clientX e - rect_left rect)
                           (clientY e - rect_top rect) pushed = 2) /\
    (forall (touch : Touch) (rest : list Touch) (rect : Rect) (now : R),
        exists touched : ProfileDots,
          onTouchStart self (touch :: rest) rect now = Ok touched /\
          getRippleInfluence touched (touch_clientX touch - rect_left rect)
                             (touch_clientY touch - rect_top rect) now = 2).
Proof.
  intros self Hreach. apply Reachable_intensity in Hreach.
  assert (Hcap : forall a : R, 0 <= a -> Rmin (a + (2 + 0)) 2 = 2).
  { intros a Ha. unfold Rmin. destruct (Rle_dec (a + (2 + 0)) 2); lra. }
  split.
  - intros e rect pushed now Hclose.
    rewrite getRippleInfluence_sum.
    rewrite (onMouseDown_kept self e rect pushed now Hclose).
    rewrite map_app, Rsum_app. simpl.
    rewrite specContribution_at_birth by reflexivity. simpl.
    apply Hcap. apply Rsum_contributions_nonneg.
    apply Forall_forall. intros r Hr. apply filter_In in Hr.
    rewrite Forall_forall in Hreach. apply Hreach. tauto.
  - intros touch rest rect now. eexists. split; [reflexivity|].
    rewrite getRippleInfluence_sum. simpl.
    rewrite map_app, Rsum_app. simpl.
    rewrite specContribution_at_birth by reflexivity. simpl.
    apply Hcap. apply Rsum_contributions_nonneg. exact Hreach.
Qed.

Lemma fresh_ripple_full_influence_witness :
  getRippleInfluence
    (onMouseDown sampleBusy (mkMouseEvent 30 40) sampleBox 700 701)
    (30 - 0) (40 - 0) 700 = 2.
Proof.
  apply (proj1 (fresh_ripple_full_influence sampleBusy sampleBusy_Reachable)
               (mkMouseEvent 30 40) sampleBox 700 701).
  lra.
Defined.

(* ================================================================= *)
(** ** What a frame paints *)

Lemma animateFrame_paints (self : ProfileDots) (t : R) (id : nat) :
  snd (animateFrame self t id) =
  ClearRect 0 0 (logicalWidth self) (logicalHeight self)
  :: map (fun d => snd (drawDot (set_time self (time self +
                                                animationSpeed self)) t d))
         (dots self)
  ++ (if removeWaveLine self then []
      else flat_map (drawWave t) (ripples self)).
Proof. simpl. rewrite map_map. reflexivity. Qed.

Lemma drawWave_In (t : R) (r : Ripple) (p : Paint) :
  In p (drawWave t r) ->
  t - ripple_time r < 2000 /\
  p = StrokeArc (ripple_x r) (ripple_y r)
                ((t - ripple_time r) / 2000 * 150)
                ((1 - (t - ripple_time r) / 2000) * 0.3 * intensity r).
Proof.
  unfold drawWave. destruct (Rlt_dec (t - ripple_time r) 2000) as [Hlt|];
    [|intros []].
  intros [<-|[]]. split; [exact Hlt|reflexivity].
Qed.

Lemma animateFrame_strokes (self : ProfileDots) (t : R) (id : nat) :
  filter isStroke (snd (animateFrame self t id)) =
  (if removeWaveLine self then []
   else flat_map (drawWave t) (ripples self)).
Proof.
  rewrite animateFrame_paints. cbn [filter isStroke].
  rewrite filter_app.
  assert (Hdots : forall ds,
             filter isStroke
               (map (fun d => snd (drawDot (set_time self
                                              (time self +
                                               animationSpeed self)) t d))
                    ds) = []).
  { induction ds as [|d ds IH]; [reflexivity|]. simpl. exact IH. }
  rewrite Hdots. simpl. destruct (removeWaveLine self); [reflexivity|].
  induction (ripples self) as [|r rs IH]; [reflexivity|].
  simpl. rewrite filter_app, IH. f_equal.
  unfold drawWave. destruct (Rlt_dec (t - ripple_time r) 2000);
    reflexivity.
Qed.

Lemma drawWave_live (t : R) (rs : list Ripple) :
  flat_map (drawWave t) rs =
  map (fun r => StrokeArc (ripple_x r) (ripple_y r)
                          ((t - ripple_time r) / 2000 * 150)
                          ((1 - (t - ripple_time r) / 2000) * 0.3 *
                           intensity r))
      (filter (fun r => Rltb (t - ripple_time r) 2000) rs).
Proof.
  induction rs as [|r rs IH]; [reflexivity|].
  cbn [flat_map filter]. rewrite IH. unfold drawWave, Rltb.
  destruct (Rlt_dec (t - ripple_time r) 2000); reflexivity.
Qed.

(** X11: in a frame whose clock reading no ripple is ahead of, the
    outlines stroked are those of the ripples younger than 2000 ms, one
    each and in list order, centred on the ripple with radius
    [age/2000*150] and alpha [(1 - age/2000)*0.3*intensity], and none
    when [removeWaveLine] is set; in a reachable state every such
    outline has a radius in [[0, 150)] and an alpha in [(0, 0.6]]. *)
Theorem animate_outlines :
  forall (self : ProfileDots) (t : R) (id : nat),
    (forall r : Ripple, In r (ripples self) -> ripple_time r <= t) ->
    filter isStroke (snd (animateFrame self t id)) =
    (if removeWaveLine self then []
     else map (fun r => StrokeArc (ripple_x r) (ripple_y r)
                                  ((t - ripple_time r) / 2000 * 150)
                                  ((1 - (t - ripple_time r) / 2000) * 0.3 *
                                   intensity r))
              (filter (fun r => Rltb (t - ripple_time r) 2000)
                      (ripples self))) /\
    (Reachable self ->
     forall x y radius alpha : R,
       In (StrokeArc x y radius alpha) (snd (animateFrame self t id)) ->
       removeWaveLine self = false /\
       (exists r : Ripple,
           In r (ripples self) /\ t - ripple_time r < 2000 /\
           x = ripple_x r /\ y = ripple_y r /\
           radius = (t - ripple_time r) / 2000 * 150) /\
       0 <= radius < 150 /\ 0 < alpha <= 0.6).
Proof.
  intros self t id Hpast.
  pose proof (animateFrame_strokes self t id) as Hfilter.
  split; [rewrite Hfilter, drawWave_live; reflexivity|].
  intros Hreach x y radius alpha Hin.
  assert (Hin' : In (StrokeArc x y radius alpha)
                    (filter isStroke (snd (animateFrame self t id))))
    by (apply filter_In; split; [exact Hin|reflexivity]).
  rewrite Hfilter in Hin'.
  destruct (removeWaveLine self); [destruct Hin'|].
  split; [reflexivity|].
  apply in_flat_map in Hin'. destruct Hin' as (r & Hr & Hp).
  apply drawWave_In in Hp. destruct Hp as [Hage Hp].
  injection Hp as -> -> -> ->.
  apply Reachable_intensity in Hreach. rewrite Forall_forall in Hreach.
  pose proof (Hreach r Hr) as Hi. simpl in Hi. rewrite Hi.
  pose proof (Hpast r Hr) as Hle.
  split; [exists r; auto|]. lra.
Qed.

Lemma animate_outlines_witness :
  exists x y radius alpha : R,
    In (StrokeArc x y radius alpha) (snd (animateFrame sampleBusy 1000 2)) /\
    0 <= radius < 150 /\ 0 < alpha <= 0.6.
Proof.
  assert (Hpast : forall r : Ripple,
             In r (ripples sampleBusy) -> ripple_time r <= 1000).
  { rewrite sampleBusy_ripples. intros r [<-|[<-|[]]]; simpl; lra. }
  assert (Hin : In (StrokeArc (85 - 0) (10 - 0) ((1000 - 0) / 2000 * 150)
                              ((1 - (1000 - 0) / 2000) * 0.3 * 2))
                   (snd (animateFrame sampleBusy 1000 2))).
  { apply (proj1 (filter_In isStroke _ _)).
    rewrite animateFrame_strokes.
    change (removeWaveLine sampleBusy) with false. cbv iota.
    rewrite sampleBusy_ripples. cbn [flat_map]. apply in_or_app. left.
    unfold drawWave, sampleRipple. cbn [ripple_time ripple_x ripple_y intensity].
    destruct (Rlt_dec (1000 - 0) 2000); [left; reflexivity|lra]. }
  destruct (proj2 (animate_outlines sampleBusy 1000 2 Hpast)
                  sampleBusy_Reachable _ _ _ _ Hin) as (_ & _ & Hr & Ha).
  do 4 eexists. split; [exact Hin|]. split; assumption.
Defined.

Lemma getMouseInfluence_range (self : ProfileDots) (x y : R) :
  0 <= getMouseInfluence self x y <= 1.
Proof.
  rewrite getMouseInfluence_spec. apply specMouseInfluence_range.
  apply euclidean_nonneg.
Qed.

(** X12: in a reachable state every circle a frame fills is centred at
    a dot's original position and has a radius between 1 and 11 and an
    opacity between 0.6 and 2: neither the floor of 0 on the radius nor
    the floor of 0.3 on the opacity is ever the value painted. *)
Theorem animate_dot_ranges :
  forall self : ProfileDots,
    Reachable self ->
    forall (t : R) (id : nat) (x y radius : R) (color : string)
           (opacity : R),
      In (FillArc x y radius color opacity) (snd (animateFrame self t id)) ->
      (exists d : Dot,
          In d (dots self) /\ x = originalX d /\ y = originalY d) /\
      1 <= radius <= 11 /\ 0.6 <= opacity <= 2.
Proof.
  intros self Hreach t id x y radius color opacity Hin.
  rewrite animateFrame_paints in Hin.
  destruct Hin as [Hin|Hin]; [discriminate|].
  apply in_app_or in Hin. destruct Hin as [Hin|Hin].
  - apply in_map_iff in Hin. destruct Hin as (d & Hp & Hd).
    unfold drawDot in Hp. cbn [snd] in Hp.
    set (s1 := set_time self (time self + animationSpeed self)) in Hp.
    pose proof (getMouseInfluence_range s1 (originalX d) (originalY d))
      as Hm.
    assert (Hr : 0 <= getRippleInfluence s1 (originalX d) (originalY d) t
                 <= 2).
    { apply getRippleInfluence_bounds.
      apply Reachable_intensity in Hreach.
      eapply Forall_impl; [|exact Hreach].
      intros r Hi. simpl in Hi. rewrite Hi. lra. }
    set (total := getMouseInfluence s1 (originalX d) (originalY d) +
                  getRippleInfluence s1 (originalX d) (originalY d) t) in Hp.
    assert (Ht : 0 <= total <= 3) by (unfold total; lra).
    set (T := time self + animationSpeed self).
    pose proof (SIN_bound (T + phase d)) as Hsin.
    pose proof (SIN_bound (T * 0.5 + phase d)) as Hsin'.
    pose proof (Rabs_pos (sin (T * 0.5 + phase d))) as Habs.
    assert (Habs' : Rabs (sin (T * 0.5 + phase d)) <= 1)
      by (apply Rabs_le; lra).
    injection Hp as <- <- <- <- <-.
    split; [exists d; auto|].
    fold T.
    rewrite Rmax_right by lra. rewrite Rmax_right by lra. lra.
  - destruct (removeWaveLine self); [destruct Hin|].
    apply in_flat_map in Hin. destruct Hin as (r & _ & Hp).
    apply drawWave_In in Hp. destruct Hp as [_ Hp]. discriminate.
Qed.

Lemma animate_dot_ranges_witness :
  exists (x y radius : R) (color : string) (opacity : R),
    In (FillArc x y radius color opacity)
       (snd (animateFrame sampleBusy 1000 2)) /\
    1 <= radius <= 11 /\ 0.6 <= opacity <= 2.
Proof.
  set (d := mkDot (gridCoord 20 0) (gridCoord 20 0) (gridCoord 20 0)
                  (gridCoord 20 0) (0 * PI * 2)).
  set (s1 := set_time sampleBusy (time sampleBusy + animationSpeed sampleBusy)).
  assert (Hin : In (snd (drawDot s1 1000 d))
                   (snd (animateFrame sampleBusy 1000 2))).
  { rewrite animateFrame_paints. right. apply in_or_app. left.
    apply in_map_iff. exists d. split; [reflexivity|].
    rewrite sampleBusy_dots. left. reflexivity. }
  unfold drawDot in Hin. cbn [snd] in Hin.
  destruct (animate_dot_ranges sampleBusy sampleBusy_Reachable 1000 2
                               _ _ _ _ _ Hin) as (_ & Hr & Ho).
  do 5 eexists. split; [exact Hin|]. split; assumption.
Defined.

(* ================================================================= *)
(** ** Runs *)

Lemma handle_time (fuel : nat) (self self' : ProfileDots) (ev : Event)
      (out : list Paint) :
  handle fuel self ev = Ok (self', out) ->
  time self' =
  time self + (if isFrame ev then animationSpeed self else 0).
Proof.
  intros Hstep.
  destruct ev as [parent random|e rect|e rect pushed now|
                  |touches rect now|now id]; cbn [handle] in Hstep;
    cbn [isFrame].
  - destruct (resize fuel self parent random) as [s| |] eqn:Hres;
      simpl in Hstep; try discriminate.
    injection Hstep as <- _. apply resize_Ok in Hres.
    destruct Hres as (rect & ds & _ & _ & ->). simpl. lra.
  - injection Hstep as <- _. simpl. lra.
  - injection Hstep as <- _. simpl. lra.
  - injection Hstep as <- _. simpl. lra.
  - destruct (onTouchStart self touches rect now) as [s| |] eqn:Ht;
      simpl in Hstep; try discriminate.
    injection Hstep as <- _. apply onTouchStart_Ok in Ht.
    destruct Ht as (touch & rest & _ & ->). simpl. lra.
  - injection Hstep as <- _. reflexivity.
Qed.

Lemma handle_Frame_Ok (fuel : nat) (self : ProfileDots) (ev : Event) :
  isFrame ev = true -> exists r, handle fuel self ev = Ok r.
Proof.
  destruct ev; try discriminate. intros _. eexists. reflexivity.
Qed.

(** X13: over any run of events the animation clock [this.time] grows
    by [animationSpeed] per frame delivered and by nothing else (the
    wall-clock readings play no part), the configuration stays as the
    constructor set it, and the state stays reachable. *)
Theorem runEvents_clock :
  forall (evs : list Event) (fuel : nat) (self self' : ProfileDots)
         (paints : list Paint),
    runEvents fuel self evs = Ok (self', paints) ->
    time self' =
    time self + INR (length (filter isFrame evs)) * animationSpeed self /\
    config self' = config self /\
    (Reachable self -> Reachable self').
Proof.
  induction evs as [|ev evs IH]; intros fuel self self' paints Hrun.
  - simpl in Hrun. injection Hrun as <- _. simpl. split; [lra|auto].
  - cbn [runEvents] in Hrun.
    destruct (handle fuel self ev) as [[s1 out]|err|] eqn:Hstep;
      [| |discriminate].
    + destruct (runEvents fuel s1 evs) as [[s2 p2]| |] eqn:Hrest;
        simpl in Hrun; try discriminate.
      injection Hrun as <- _.
      destruct (IH fuel s1 s2 p2 Hrest) as (Ht & Hc & Hreach).
      pose proof (handle_time _ _ _ _ _ Hstep) as Ht1.
      pose proof (handle_config _ _ _ _ _ Hstep) as Hc1.
      pose proof (config_fields _ _ Hc1) as (_ & _ & _ & Han & _).
      split; [|split].
      * rewrite Ht, Ht1, Han. cbn [filter].
        destruct (isFrame ev); cbn [length]; [rewrite S_INR|]; lra.
      * rewrite Hc. exact Hc1.
      * intros Hr. apply Hreach.
        exact (reach_event fuel self s1 ev out Hr Hstep).
    + destruct (IH fuel self self' paints Hrun) as (Ht & Hc & Hreach).
      split; [|split; assumption].
      rewrite Ht. cbn [filter].
      destruct (isFrame ev) eqn:Hf; [|reflexivity].
      destruct (handle_Frame_Ok fuel self ev Hf) as [r Hr].
      rewrite Hr in Hstep. discriminate.
Qed.

Lemma runEvents_clock_witness :
  exists (self' : ProfileDots) (paints : list Paint),
    runEvents 0 sampleStart [Frame 16 2; MouseUp; Frame 33 3] =
    Ok (self', paints) /\
    time self' = time sampleStart + INR 2 * animationSpeed sampleStart.
Proof.
  eexists. eexists.
  assert (H : runEvents 0 sampleStart [Frame 16 2; MouseUp; Frame 33 3] =
              Ok (fst (animateFrame
                         (onMouseUp (fst (animateFrame sampleStart 16 2)))
                         33 3),
                  snd (animateFrame sampleStart 16 2) ++
                  [] ++
                  snd (animateFrame
                         (onMouseUp (fst (animateFrame sampleStart 16 2)))
                         33 3) ++ []))
    by reflexivity.
  split; [exact H|].
  exact (proj1 (runEvents_clock _ _ _ _ _ H)).
Defined.

Lemma forgetDown_fields (s1 s2 : ProfileDots) :
  forgetDown s1 = forgetDown s2 ->
  exists b : bool,
    s1 = set_mouse s2 (mkMouse (mouse_x (mouse s2)) (mouse_y (mouse s2)) b).
Proof.
  destruct s1 as [w1 h1 sc1 bg1 dc1 gs1 an1 rw1 t1 [mx1 my1 d1] rs1 ds1 dp1 id1].
  destruct s2 as [w2 h2 sc2 bg2 dc2 gs2 an2 rw2 t2 [mx2 my2 d2] rs2 ds2 dp2 id2].
  unfold forgetDown. simpl. intros H.
  injection H as -> -> -> -> -> -> -> -> -> -> -> -> -> -> ->.
  exists d1. reflexivity.
Qed.

Lemma handle_forgetDown (fuel : nat) (s2 : ProfileDots) (b : bool)
      (ev : Event) :
  match handle fuel (set_mouse s2 (mkMouse (mouse_x (mouse s2))
                                           (mouse_y (mouse s2)) b)) ev,
        handle fuel s2 ev with
  | Ok (a, o1), Ok (c, o2) => forgetDown a = forgetDown c /\ o1 = o2
  | Throw _, Throw _ => True
  | OutOfFuel, OutOfFuel => True
  | _, _ => False
  end.
Proof.
  destruct s2 as [w2 h2 sc2 bg2 dc2 gs2 an2 rw2 t2 [mx2 my2 d2] rs2 ds2 dp2 id2].
  destruct ev as [parent random|e rect|e rect pushed now|
                  |touches rect now|now id]; cbn [handle].
  - unfold resize. destruct parent as [rect|]; [|exact I].
    simpl.
    destruct (initDots random gs2 fuel (rect_width rect) (rect_height rect));
      simpl; [split; reflexivity|exact I].
  - split; reflexivity.
  - split; reflexivity.
  - split; reflexivity.
  - destruct touches as [|touch rest]; simpl; [exact I|split; reflexivity].
  - split; reflexivity.
Qed.

(** X14: [this.mouse.isDown] is written but never read: two objects
    that differ in it alone paint the same over every run of events and
    end up differing in it alone; in particular a [mouseup] delivered
    before a run changes nothing of what the run paints. *)
Theorem isDown_never_read :
  (forall (evs : list Event) (fuel : nat) (s1 s2 s1' : ProfileDots)
          (paints : list Paint),
      forgetDown s1 = forgetDown s2 ->
      runEvents fuel s1 evs = Ok (s1', paints) ->
      exists s2' : ProfileDots,
        runEvents fuel s2 evs = Ok (s2', paints) /\
        forgetDown s1' = forgetDown s2') /\
  (forall (evs : list Event) (fuel : nat) (s1 s1' : ProfileDots)
          (paints : list Paint),
      runEvents fuel s1 evs = Ok (s1', paints) ->
      exists s3 : ProfileDots,
        runEvents fuel s1 (MouseUp :: evs) = Ok (s3, paints)).
Proof.
  assert (Hsim : forall evs fuel s1 s2 s1' paints,
             forgetDown s1 = forgetDown s2 ->
             runEvents fuel s1 evs = Ok (s1', paints) ->
             exists s2', runEvents fuel s2 evs = Ok (s2', paints) /\
                         forgetDown s1' = forgetDown s2').
  { induction evs as [|ev evs IH]; intros fuel s1 s2 s1' paints Heq Hrun.
    - simpl in Hrun. injection Hrun as <- <-. exists s2. auto.
    - cbn [runEvents] in *.
      destruct (forgetDown_fields s1 s2 Heq) as [b Hs1].
      pose proof (handle_forgetDown fuel s2 b ev) as Hh. rewrite <- Hs1 in Hh.
      destruct (handle fuel s1 ev) as [[a o1]|e1|],
               (handle fuel s2 ev) as [[c o2]|e2|];
        try contradiction; try discriminate.
      + destruct Hh as [Hac <-].
        destruct (runEvents fuel a evs) as [[a' pa]| |] eqn:Ha;
          simpl in Hrun; try discriminate.
        injection Hrun as <- <-.
        destruct (IH fuel a c a' pa Hac Ha) as (c' & Hc & Heq').
        exists c'. rewrite Hc. simpl. auto.
      + exact (IH fuel s1 s2 s1' paints Heq Hrun). }
  split; [exact Hsim|].
  - intros evs fuel s1 s1' paints Hrun. cbn [runEvents handle].
    destruct (Hsim evs fuel s1 (onMouseUp s1) s1' paints) as (s3 & Hs3 & _);
      [reflexivity|exact Hrun|].
    exists s3. rewrite Hs3. reflexivity.
Qed.

Lemma isDown_never_read_witness :
  exists s2' : ProfileDots,
    runEvents 0 (onMouseUp sampleBusy) [Frame 1000 2] =
    Ok (s2', snd (animateFrame sampleBusy 1000 2) ++ []).
Proof.
  assert (Hrun : runEvents 0 sampleBusy [Frame 1000 2] =
                 Ok (fst (animateFrame sampleBusy 1000 2),
                     snd (animateFrame sampleBusy 1000 2) ++ []))
    by reflexivity.
  assert (Heq : forgetDown sampleBusy = forgetDown (onMouseUp sampleBusy))
    by reflexivity.
  destruct (proj1 isDown_never_read _ _ _ _ _ _ Heq Hrun) as (s2' & H & _).
  exists s2'. exact H.
Defined.

(* ================================================================= *)
(** ** The outcomes of the constructor *)



(** X16: the constructor throws exactly when the element it finds
    cannot give a 2d context or has no parent element, and it leaves an
    inert object exactly when it finds no element. *)
Theorem construct_outcomes :
  forall (fuel : nat) (b : Browser) (canvasId : string) (options : Options),
    (construct fuel b canvasId options = Throw TypeError <->
     exists el : Element,
       getElementById b canvasId = Some el /\
       (has2dContext el = false \/ parentBox el = None)) /\
    ((exists eff : Effects,
         construct fuel b canvasId options = Ok (Inert, eff)) <->
     getElementById b canvasId = None).
Proof.
  intros fuel b canvasId options. unfold construct.
  destruct (getElementById b canvasId) as [el|].
  - destruct (has2dContext el) eqn:Hctx.
    + unfold init, resize. destruct (parentBox el) as [rect|] eqn:Hp.
      * cbv zeta.
        match goal with |- context [initDots ?r ?s ?f ?w ?h] =>
          destruct (initDots r s f w h) as [ds|]
        end; simpl; (split; split);
          try discriminate;
          try (intros (el' & Hel & [Hc|Hn]); injection Hel as <-;
               congruence);
          try (intros [eff Heff]; discriminate).
      * simpl. split; split; try discriminate.
        -- intros _. exists el. auto.
        -- reflexivity.
        -- intros [eff Heff]. discriminate.
    + split; split; try discriminate.
      * intros _. exists el. auto.
      * reflexivity.
      * intros [eff Heff]. discriminate.
  - split; split; try discriminate.
    + intros (el & Hel & _). discriminate.
    + reflexivity.
    + intros _. exists noEffects. reflexivity.
Qed.

(* ================================================================= *)
(** ** The [DOMContentLoaded] listener *)

Lemma orNumber_Some (n d : R) : n <> 0 -> orNumber (Some n) d = n.
Proof.
  intros Hn. unfold orNumber. destruct (Req_dec_T n 0); [contradiction|].
  reflexivity.
Qed.



(* ================================================================= *)
(** ** The reach of the influences *)

Lemma specContribution_far (x y now : R) (r : Ripple) :
  ripple_time r <= now ->
  190 <= euclidean x y (ripple_x r) (ripple_y r) ->
  specContribution x y now r = 0.
Proof.
  intros Hpast Hfar. unfold specContribution.
  destruct (Rlt_dec (now - ripple_time r) 2000) as [Hage|]; [|reflexivity].
  match goal with |- context [Rlt_dec (Rabs ?a) 40] =>
    destruct (Rlt_dec (Rabs a) 40) as [Hnear|]; [|reflexivity];
    assert (Ha : 40 <= a) by lra
  end.
  rewrite Rabs_right in Hnear by lra. lra.
Qed.

Lemma Rsum_zero (l : list R) : Forall (fun a => a = 0) l -> Rsum l = 0.
Proof.
  induction 1 as [|a l Ha _ IH]; simpl; [reflexivity|]. lra.
Qed.

Lemma getRippleInfluence_far (self : ProfileDots) (x y t : R) :
  (forall r : Ripple,
      In r (ripples self) ->
      ripple_time r <= t /\
      190 <= euclidean x y (ripple_x r) (ripple_y r)) ->
  getRippleInfluence self x y t = 0.
Proof.
  intros Hfar. rewrite getRippleInfluence_sum, Rsum_zero.
  - unfold Rmin. destruct (Rle_dec 0 2); lra.
  - apply Forall_map. apply Forall_forall. intros r Hr.
    destruct (Hfar r Hr) as [Hpast Hd].
    apply specContribution_far; assumption.
Qed.

(** X18: a ripple reaches no further than 190 from its centre (its
    ring grows to a radius below 150 and is felt within 40 of it): at a
    point 190 or more away from every ripple, read at a time no ripple
    is ahead of, the ripple influence is 0. *)
Theorem ripple_reach :
  forall (self : ProfileDots) (x y t : R),
    (forall r : Ripple,
        In r (ripples self) ->
        ripple_time r <= t /\
        190 <= euclidean x y (ripple_x r) (ripple_y r)) ->
    getRippleInfluence self x y t = 0 /\
    (forall (total : R) (r : Ripple),
        In r (ripples self) -> rippleStep x y t total r = total).
Proof.
  intros self x y t Hfar. split.
  - apply getRippleInfluence_far. exact Hfar.
  - intros total r Hr. destruct (Hfar r Hr) as [Hpast Hd].
    rewrite rippleStep_contribution, specContribution_far by assumption.
    lra.
Qed.

Lemma euclidean_sample_far : euclidean 300 10 (85 - 0) (10 - 0) = 215.
Proof.
  unfold euclidean.
  replace ((300 - (85 - 0)) * (300 - (85 - 0)) +
           (10 - (10 - 0)) * (10 - (10 - 0)))
    with (215 * 215) by ring.
  apply sqrt_square. lra.
Qed.

Lemma ripple_reach_witness : getRippleInfluence sampleBusy 300 10 1000 = 0.
Proof.
  apply (ripple_reach sampleBusy 300 10 1000).
  rewrite sampleBusy_ripples.
  intros r [<-|[<-|[]]]; simpl ripple_time; simpl ripple_x; simpl ripple_y;
    rewrite euclidean_sample_far; split; lra.
Defined.



(* ================================================================= *)
(** ** The fill colour *)

Lemma hexDigit_char (c : ascii) (v : Z) :
  hexDigit c = Some v ->
  isSpace c = false /\ (c =? "-")%char = false /\ (c =? "+")%char = false /\
  (c =? "x")%char = false /\ (c =? "X")%char = false /\ (0 <= v <= 15)%Z.
Proof.
  intros H.
  destruct c as [[] [] [] [] [] [] [] []]; vm_compute in H;
    try discriminate H; injection H as <-;
    repeat split; try reflexivity; lia.
Qed.

Lemma parseInt16_two (c d : ascii) (v w : Z) :
  hexDigit c = Some v -> hexDigit d = Some w ->
  parseInt16 (String c (String d EmptyString)) = Some (16 * v + w)%Z.
Proof.
  intros Hc Hd.
  destruct (hexDigit_char c v Hc) as (Hsp & Hm & Hp & _).
  destruct (hexDigit_char d w Hd) as (_ & _ & _ & Hx & HX & _).
  unfold parseInt16. cbn [trimStart]. rewrite Hsp.
  cbn [stripSign]. rewrite Hm, Hp. cbn [stripHexPrefix].
  rewrite Hx, HX, andb_false_r. cbn [hexPrefix]. rewrite Hc, Hd.
  cbn [hexPrefix option_map]. f_equal. lia.
Qed.

Lemma substring_0_0 (s : string) : substring 0 0 s = EmptyString.
Proof. destruct s; reflexivity. Qed.

Lemma substring_beyond (s : string) :
  forall n m : nat,
    (String.length s <= n)%nat -> substring n m s = EmptyString.
Proof.
  induction s as [|c s IH]; intros n m Hn.
  - destruct n, m; reflexivity.
  - destruct n as [|n]; simpl in Hn; [lia|].
    simpl. apply IH. lia.
Qed.

(** X20: for a colour string whose characters 1 to 6 are hexadecimal
    digits (as in [#RRGGBB]; the first character is not looked at, and
    anything may follow), the three components [animate] puts in
    [fillStyle] are the values of the three digit pairs, each between 0
    and 255. *)
Theorem dotRGB_hex :
  forall (c0 c1 c2 c3 c4 c5 c6 : ascii) (rest : string)
         (v1 v2 v3 v4 v5 v6 : Z),
    hexDigit c1 = Some v1 -> hexDigit c2 = Some v2 ->
    hexDigit c3 = Some v3 -> hexDigit c4 = Some v4 ->
    hexDigit c5 = Some v5 -> hexDigit c6 = Some v6 ->
    dotRGB (String c0 (String c1 (String c2 (String c3 (String c4
              (String c5 (String c6 rest))))))) =
    (Some (16 * v1 + v2)%Z, Some (16 * v3 + v4)%Z, Some (16 * v5 + v6)%Z) /\
    (0 <= 16 * v1 + v2 <= 255)%Z /\ (0 <= 16 * v3 + v4 <= 255)%Z /\
    (0 <= 16 * v5 + v6 <= 255)%Z.
Proof.
  intros c0 c1 c2 c3 c4 c5 c6 rest v1 v2 v3 v4 v5 v6 H1 H2 H3 H4 H5 H6.
  split.
  - unfold dotRGB, slice. cbn [substring Nat.sub].
    rewrite substring_0_0.
    rewrite (parseInt16_two c1 c2 v1 v2 H1 H2),
      (parseInt16_two c3 c4 v3 v4 H3 H4),
      (parseInt16_two c5 c6 v5 v6 H5 H6).
    reflexivity.
  - pose proof (hexDigit_char _ _ H1) as (_ & _ & _ & _ & _ & ?).
    pose proof (hexDigit_char _ _ H2) as (_ & _ & _ & _ & _ & ?).
    pose proof (hexDigit_char _ _ H3) as (_ & _ & _ & _ & _ & ?).
    pose proof (hexDigit_char _ _ H4) as (_ & _ & _ & _ & _ & ?).
    pose proof (hexDigit_char _ _ H5) as (_ & _ & _ & _ & _ & ?).
    pose proof (hexDigit_char _ _ H6) as (_ & _ & _ & _ & _ & ?).
    lia.
Qed.

(** The default gold. *)
Lemma dotRGB_hex_witness :
  dotRGB "#FFD700" = (Some 255%Z, Some 215%Z, Some 0%Z).
Proof.
  exact (proj1 (dotRGB_hex "#" "F" "F" "D" "7" "0" "0" EmptyString
                           15 15 13 7 0 0
                           eq_refl eq_refl eq_refl eq_refl eq_refl eq_refl)).
Defined.

(** X21: a colour string of at most 5 characters (a CSS shorthand such
    as [#FD0], or most colour names) leaves the blue component [NaN];
    at most 3 characters leave green [NaN] too, and at most 1 all
    three. *)
Theorem dotRGB_short :
  forall color : string,
    ((String.length color <= 5)%nat -> snd (dotRGB color) = None) /\
    ((String.length color <= 3)%nat -> snd (fst (dotRGB color)) = None) /\
    ((String.length color <= 1)%nat -> fst (fst (dotRGB color)) = None).
Proof.
  intros color. unfold dotRGB, slice. cbn [fst snd].
  repeat split; intros H; rewrite substring_beyond by exact H; reflexivity.
Qed.

Lemma dotRGB_short_witness : snd (dotRGB "#FD0") = None.
Proof.
  apply (proj1 (dotRGB_short "#FD0")). simpl. lia.
Defined.
